(** * HEOS services: the join / unjoin group reconciliation

    A shallow embedding of [homeassistant/components/heos/services.py].
    The four service handlers are coroutines that talk to a pyheos
    controller, log, and return nothing.  A handler is embedded as a
    computation that produces the sequence of things it does (log
    records, awaited controller calls) together with the way it ends
    (normal return, or an exception that escapes the handler). *)

From Stdlib Require Import ZArith String List.
From stdpp Require Import base decidable option list sets gmap strings.

Open Scope string_scope.
Open Scope Z_scope.
Open Scope list_scope.

(** ** Python values used by the handlers *)

(** pyheos objects.  Player and group identifiers are Python ints. *)
Module pyheos.

Record HeosPlayer := { player_id : Z }.

Record HeosGroup := {
  leader : HeosPlayer;
  members : list HeosPlayer
}.

(** [const.STATE_CONNECTED] *)
Definition STATE_CONNECTED : string := "connected".

(** The exceptions of the library: [CommandFailedError] is a subclass
    of [HeosError]. *)
Inductive HeosError := CommandFailedError | OtherHeosError.

End pyheos.

(** The value of [controller.get_groups()]: a dict from group id to
    group.  A dict iterates in insertion order, so it is kept as the list
    of its items; the keys of a dict are pairwise distinct. *)
Abbreviation groups_dict := (list (Z * pyheos.HeosGroup)).

(** The entities of the media_player domain, [hass.data[DOMAIN].entities].
    Only some of them are HEOS players ([isinstance(e, HeosMediaPlayer)]);
    those carry the pyheos [player_id]. *)
Inductive Entity :=
| HeosMediaPlayer (entity_id : string) (player_id : Z)
| OtherMediaPlayer (entity_id : string).

Record HomeAssistant := { entities : list Entity }.

(** ** What a handler does *)

(** Calls on the controller.  [create_group] and [update_group] receive
    [list(some_set)]: the order of that list is whatever the set
    iterates in, so the argument is recorded as the set of ids. *)
Inductive command :=
| sign_in (username password : string)
| sign_out
| get_groups (refresh : bool)
| create_group (leader_id : Z) (member_ids : gset Z)
| update_group (group_id : Z) (member_ids : gset Z)
| remove_group (group_id : Z).

Inductive level := ERROR | INFO | DEBUG.

(** A log record is kept as its level and format string. *)
Inductive event :=
| Log (lvl : level) (fmt : string)
| Await (c : command).

Inductive exn :=
| Raised (e : pyheos.HeosError)
| UnboundLocalError (name : string).

Definition isinstance_HeosError (e : exn) : bool :=
  match e with Raised _ => true | _ => false end.

Definition isinstance_CommandFailedError (e : exn) : bool :=
  match e with Raised pyheos.CommandFailedError => true | _ => false end.

(** The controller as the handlers see it: its connection state, what
    [get_groups] answers and which commands it rejects.  Within one run a
    handler sends each command at most once, so the answer is a function
    of the command. *)
Record Heos := {
  connection_state : string;
  groups_answer : pyheos.HeosError + groups_dict;
  command_answer : command -> option pyheos.HeosError
}.

(** ** The monad of handler bodies: a trace and an outcome *)

Definition py (A : Type) : Type := list event * (exn + A).

Definition trace {A} (m : py A) : list event := fst m.
Definition outcome {A} (m : py A) : exn + A := snd m.

#[global] Instance py_ret : MRet py := fun A a => ([], inr a).

#[global] Instance py_bind : MBind py := fun A B f m =>
  match m with
  | (t, inl e) => (t, inl e)
  | (t, inr a) => let '(t', r) := f a in (t ++ t', r)
  end.

#[global] Instance py_throw : MThrow exn py := fun A e => ([], inl e).

(** [try: body  except ...: handler] *)
Definition try_except {A} (body : py A) (handler : exn -> py A) : py A :=
  match body with
  | (t, inl e) => let '(t', r) := handler e in (t ++ t', r)
  | (t, inr a) => (t, inr a)
  end.

(** One [except HeosError as err:] clause: other exceptions propagate. *)
Definition except_HeosError {A} (h : py A) : exn -> py A :=
  fun err => if isinstance_HeosError err then h else mthrow err.

Definition log (lvl : level) (fmt : string) : py unit :=
  ([Log lvl fmt], inr tt).

(** [await controller.<command>(...)] for the commands that return
    nothing the handlers use. *)
Definition await (controller : Heos) (c : command) : py unit :=
  ([Await c],
   match command_answer controller c with
   | Some e => inl (Raised e)
   | None => inr tt
   end).

(** [await controller.get_groups(refresh=...)] *)
Definition await_get_groups (controller : Heos) (refresh : bool)
  : py groups_dict :=
  ([Await (get_groups refresh)],
   match groups_answer controller with
   | inl e => inl (Raised e)
   | inr g => inr g
   end).

(** [for x in l: body] *)
Fixpoint for_each {A} (l : list A) (body : A -> py unit) : py unit :=
  match l with
  | [] => mret tt
  | x :: l' => body x ;; for_each l' body
  end.

(** Truth value of a player or group id that may still be [None]. *)
Definition truthy (v : option Z) : bool :=
  match v with
  | None => false
  | Some z => negb (z =? 0)
  end.

Definition connected (controller : Heos) : bool :=
  String.eqb (connection_state controller) pyheos.STATE_CONNECTED.

(** ** Service data *)

Record sign_in_data := { ATTR_USERNAME : string; ATTR_PASSWORD : string }.

(** join: [group_leader] is one entity id, [entity_id] a list of them. *)
Record join_data := {
  ATTR_GROUP_LEADER : string;
  join_ATTR_ENTITY_ID : list string
}.

(** unjoin: [entity_id] defaults to the empty list. *)
Record unjoin_data := { unjoin_ATTR_ENTITY_ID : list string }.

(** ** The handlers *)

Definition _sign_in_handler (controller : Heos) (service : sign_in_data)
  : py unit :=
  if negb (connected controller) then
    log ERROR "Unable to sign in because HEOS is not connected"
  else
    let username := ATTR_USERNAME service in
    let password := ATTR_PASSWORD service in
    try_except (await controller (sign_in username password))
      (fun err =>
         if isinstance_CommandFailedError err then
           log ERROR "Sign in failed: %s"
         else if isinstance_HeosError err then
           log ERROR "Unable to sign in: %s"
         else mthrow err).

Definition _sign_out_handler (controller : Heos) : py unit :=
  if negb (connected controller) then
    log ERROR "Unable to sign out because HEOS is not connected"
  else
    try_except (await controller sign_out)
      (except_HeosError (log ERROR "Unable to sign out: %s")).

(** The loop that looks for the leader entity: the [player_id] of the
    first HEOS entity whose [entity_id] is [leader], else [None]. *)
Fixpoint find_leader_player_id (ents : list Entity) (leader : string)
  : option Z :=
  match ents with
  | [] => None
  | HeosMediaPlayer eid pid :: rest =>
      if bool_decide (eid = leader) then Some pid
      else find_leader_player_id rest leader
  | OtherMediaPlayer _ :: rest => find_leader_player_id rest leader
  end.

(** The loop over [groups.items()] with its [break]: the id and member
    ids of the first group led by [leader_player_id], else
    [(None, set())]. *)
Fixpoint find_existing_group (items : groups_dict) (leader_player_id : Z)
  : option Z * gset Z :=
  match items with
  | [] => (None, ∅)
  | (heos_group_id, heos_group) :: rest =>
      if bool_decide
           (pyheos.player_id (pyheos.leader heos_group) = leader_player_id)
      then (Some heos_group_id,
            list_to_set (pyheos.player_id <$> pyheos.members heos_group))
      else find_existing_group rest leader_player_id
  end.

(** [{e.player_id for e in entities
       if isinstance(e, HeosMediaPlayer) and e.entity_id in members}] *)
Fixpoint new_member_player_ids (ents : list Entity) (members : list string)
  : gset Z :=
  match ents with
  | [] => ∅
  | HeosMediaPlayer eid pid :: rest =>
      if bool_decide (eid ∈ members)
      then {[pid]} ∪ new_member_player_ids rest members
      else new_member_player_ids rest members
  | OtherMediaPlayer _ :: rest => new_member_player_ids rest members
  end.

Definition _join_handler (controller : Heos) (hass : HomeAssistant)
    (service : join_data) : py unit :=
  if negb (connected controller) then
    log ERROR "Unable to join because HEOS is not connected"
  else
    let leader := ATTR_GROUP_LEADER service in
    let members := join_ATTR_ENTITY_ID service in
    (* [groups] stays unbound ([None]) when get_groups raises *)
    groups ← try_except
               (g ← await_get_groups controller true; mret (Some g))
               (except_HeosError
                  (log ERROR
                     "Could not get HEOS group info while joining group. %s";;
                   mret None));
    let leader_player_id := find_leader_player_id (entities hass) leader in
    if negb (truthy leader_player_id) then
      log ERROR "Failed to determine HEOS player_id for %s"
    else
      let leader_player_id := default 0 leader_player_id in
      match groups with
      | None => mthrow (UnboundLocalError "groups")
      | Some groups =>
          let '(existing_heos_group_id, existing_heos_group_members) :=
            find_existing_group groups leader_player_id in
          let new_member_player_ids :=
            new_member_player_ids (entities hass) members in
          let all_member_player_ids :=
            new_member_player_ids ∪ existing_heos_group_members in
          if truthy existing_heos_group_id then
            log INFO "Updating HEOS group for %s with members %s";;
            try_except
              (await controller
                 (update_group (default 0 existing_heos_group_id)
                    all_member_player_ids))
              (except_HeosError
                 (log ERROR "Unable to call update_group(%s, %s): %s"))
          else
            log INFO "Creating new HEOS group for %s with members %s";;
            try_except
              (await controller
                 (create_group leader_player_id all_member_player_ids))
              (except_HeosError
                 (log ERROR
                    "HEOS create_group with arguments (%s, %s) failed. Error: %s"))
      end.

(** The loop that collects the player ids to ungroup. *)
Definition ungroup_player_ids (ents : list Entity)
    (ungroup_entity_ids : gset string) : gset Z :=
  foldl (fun acc player =>
           match player with
           | HeosMediaPlayer eid pid =>
               if bool_decide (eid ∈ ungroup_entity_ids)
               then acc ∪ {[pid]} else acc
           | OtherMediaPlayer _ => acc
           end) ∅ ents.

(** The body of the loop over [groups.items()] in the unjoin handler. *)
Definition unjoin_group (controller : Heos) (ungroup_player_ids : gset Z)
    (item : Z * pyheos.HeosGroup) : py unit :=
  let '(heos_group_id, heos_group) := item in
  if bool_decide
       (pyheos.player_id (pyheos.leader heos_group) ∈ ungroup_player_ids)
  then
    (* destroy the group, as its leader is removed *)
    try_except
      (log INFO "Removing HEOS group %s";;
       await controller (remove_group heos_group_id))
      (except_HeosError (log ERROR "Failed to remove HEOS group: %s"))
  else
    let member_player_ids : gset Z :=
      list_to_set (pyheos.player_id <$> pyheos.members heos_group) in
    let keep_member_player_ids := member_player_ids ∖ ungroup_player_ids in
    if bool_decide (keep_member_player_ids = ∅) then
      try_except
        (log INFO "Removing HEOS group %s";;
         await controller (remove_group heos_group_id))
        (except_HeosError (log ERROR "Failed to remove HEOS group: %s"))
    else if bool_decide (keep_member_player_ids ≠ member_player_ids) then
      try_except
        (await controller
           (update_group heos_group_id keep_member_player_ids))
        (except_HeosError (log ERROR "Failed to update HEOS group: %s"))
    else mret tt.

Definition _unjoin_handler (controller : Heos) (hass : HomeAssistant)
    (service : unjoin_data) : py unit :=
  if negb (connected controller) then
    log ERROR "Unable to unjoin because HEOS is not connected"
  else
    let ungroup_entity_ids : gset string :=
      list_to_set (unjoin_ATTR_ENTITY_ID service) in
    (* the except clause returns from the handler: [None] *)
    fetched ← try_except
                (g ← await_get_groups controller true; mret (Some g))
                (except_HeosError
                   (log ERROR "Failed to get HEOS groups: %s";; mret None));
    match fetched with
    | None => mret tt
    | Some groups =>
        if bool_decide (ungroup_entity_ids = ∅) then
          log DEBUG "HEOS - removing all groups.";;
          for_each groups (fun item =>
            let group_id := fst item in
            try_except (await controller (remove_group group_id))
              (except_HeosError
                 (log ERROR "Failed to remove HEOS group %s: %s")))
        else
          log DEBUG "HEOS - trying to ungroup: %s";;
          let ungroup_player_ids :=
            ungroup_player_ids (entities hass) ungroup_entity_ids in
          if bool_decide (ungroup_player_ids = ∅) then
            log ERROR "Could not find a HEOS player for %s"
          else
            for_each groups (unjoin_group controller ungroup_player_ids)
    end.

(** ** Reading a run *)

(** The group operations a run sends to the controller, in order. *)
Definition operation_of (ev : event) : option command :=
  match ev with
  | Await (create_group l ms) => Some (create_group l ms)
  | Await (update_group g ms) => Some (update_group g ms)
  | Await (remove_group g) => Some (remove_group g)
  | _ => None
  end.

Definition operations (t : list event) : list command :=
  omap operation_of t.

(** Every call on the controller, fetches included. *)
Definition calls (t : list event) : list command :=
  omap (fun ev => match ev with Await c => Some c | Log _ _ => None end) t.

(** The group an operation acts on. *)
Definition target (c : command) : option Z :=
  match c with
  | update_group g _ | remove_group g => Some g
  | _ => None
  end.

(** The member ids an operation carries. *)
Definition member_ids (c : command) : gset Z :=
  match c with
  | create_group _ ms | update_group _ ms => ms
  | _ => ∅
  end.

(** ** Sample data *)

Definition player (n : Z) : pyheos.HeosPlayer := {| pyheos.player_id := n |}.

Definition group (l : Z) (ms : list Z) : pyheos.HeosGroup :=
  {| pyheos.leader := player l; pyheos.members := player <$> ms |}.

Definition accept_all : command -> option pyheos.HeosError := fun _ => None.

Definition online (gs : groups_dict) : Heos :=
  {| connection_state := "connected";
     groups_answer := inr gs;
     command_answer := accept_all |}.

Definition house : HomeAssistant :=
  {| entities := [ HeosMediaPlayer "media_player.p1" 1;
                   OtherMediaPlayer "media_player.tv";
                   HeosMediaPlayer "media_player.p2" 2;
                   HeosMediaPlayer "media_player.p3" 3;
                   HeosMediaPlayer "media_player.p4" 4 ] |}.

(** A controller that is not connected. *)
Definition offline : Heos :=
  {| connection_state := "disconnected";
     groups_answer := inr [(10, group 1 [2; 3])];
     command_answer := accept_all |}.

(** A connected controller whose [get_groups] raises. *)
Definition unreachable : Heos :=
  {| connection_state := "connected";
     groups_answer := inl pyheos.OtherHeosError;
     command_answer := accept_all |}.

(** A controller that rejects the removal of group 10. *)
Definition rejects_remove_10 (gs : groups_dict) : Heos :=
  {| connection_state := "connected";
     groups_answer := inr gs;
     command_answer := fun c =>
       match c with
       | remove_group 10 => Some pyheos.CommandFailedError
       | _ => None
       end |}.

(** A house whose first HEOS player has player id 0. *)
Definition studio : HomeAssistant :=
  {| entities := [ HeosMediaPlayer "media_player.p0" 0;
                   HeosMediaPlayer "media_player.p5" 5;
                   HeosMediaPlayer "media_player.p6" 6;
                   HeosMediaPlayer "media_player.p7" 7 ] |}.

(** Requests. *)
Definition join_request (l : string) (ms : list string) : join_data :=
  {| ATTR_GROUP_LEADER := l; join_ATTR_ENTITY_ID := ms |}.

Definition unjoin_request (ms : list string) : unjoin_data :=
  {| unjoin_ATTR_ENTITY_ID := ms |}.

(** The error records of a run, in order. *)
Definition error_records (t : list event) : list string :=
  omap (fun ev => match ev with Log ERROR s => Some s | _ => None end) t.

(** A controller that rejects every command it is sent. *)
Definition rejects_all (gs : groups_dict) : Heos :=
  {| connection_state := "connected";
     groups_answer := inr gs;
     command_answer := fun _ => Some pyheos.CommandFailedError |}.

(** ** Registration of the services *)

(** What [register] hands to [hass.services.async_register]: the
    handler, partially applied as [functools.partial] does, and the
    schema. *)
Inductive service_func :=
| partial_sign_in (controller : Heos)
| partial_sign_out (controller : Heos)
| partial_join (controller : Heos) (hass : HomeAssistant)
| partial_unjoin (controller : Heos) (hass : HomeAssistant).

Inductive schema :=
| HEOS_SIGN_IN_SCHEMA
| HEOS_SIGN_OUT_SCHEMA
| HEOS_JOIN_SCHEMA
| HEOS_UNJOIN_SCHEMA.

(** Calls on the service registry [hass.services]. *)
Inductive registry_call :=
| async_register (domain service : string) (func : service_func) (sch : schema)
| async_remove (domain service : string).

(** [media_player/const.py]: the names and the feature flags. *)
Module media_player.

Definition DOMAIN : string := "media_player".

Definition SERVICE_CLEAR_PLAYLIST : string := "clear_playlist".
Definition SERVICE_JOIN : string := "join".
Definition SERVICE_PLAY_MEDIA : string := "play_media".
Definition SERVICE_SELECT_SOUND_MODE : string := "select_sound_mode".
Definition SERVICE_SELECT_SOURCE : string := "select_source".
Definition SERVICE_UNJOIN : string := "unjoin".

Definition SUPPORT_PAUSE : Z := 1.
Definition SUPPORT_SEEK : Z := 2.
Definition SUPPORT_VOLUME_SET : Z := 4.
Definition SUPPORT_VOLUME_MUTE : Z := 8.
Definition SUPPORT_PREVIOUS_TRACK : Z := 16.
Definition SUPPORT_NEXT_TRACK : Z := 32.

Definition SUPPORT_TURN_ON : Z := 128.
Definition SUPPORT_TURN_OFF : Z := 256.
Definition SUPPORT_PLAY_MEDIA : Z := 512.
Definition SUPPORT_VOLUME_STEP : Z := 1024.
Definition SUPPORT_SELECT_SOURCE : Z := 2048.
Definition SUPPORT_STOP : Z := 4096.
Definition SUPPORT_CLEAR_PLAYLIST : Z := 8192.
Definition SUPPORT_PLAY : Z := 16384.
Definition SUPPORT_SHUFFLE_SET : Z := 32768.
Definition SUPPORT_SELECT_SOUND_MODE : Z := 65536.
Definition SUPPORT_BROWSE_MEDIA : Z := 131072.
Definition SUPPORT_GROUPING : Z := 262144.

(** The [SUPPORT_*] constants, in the order of the file. *)
Definition SUPPORT_FLAGS : list Z :=
  [ SUPPORT_PAUSE; SUPPORT_SEEK; SUPPORT_VOLUME_SET; SUPPORT_VOLUME_MUTE;
    SUPPORT_PREVIOUS_TRACK; SUPPORT_NEXT_TRACK; SUPPORT_TURN_ON;
    SUPPORT_TURN_OFF; SUPPORT_PLAY_MEDIA; SUPPORT_VOLUME_STEP;
    SUPPORT_SELECT_SOURCE; SUPPORT_STOP; SUPPORT_CLEAR_PLAYLIST;
    SUPPORT_PLAY; SUPPORT_SHUFFLE_SET; SUPPORT_SELECT_SOUND_MODE;
    SUPPORT_BROWSE_MEDIA; SUPPORT_GROUPING ].

End media_player.

Section Registration.
(** The names that [heos/const.py] gives: the integration's domain and
    its two account services. *)
Variables (HEOS_DOMAIN SERVICE_SIGN_IN SERVICE_SIGN_OUT : string).

Definition register (hass : HomeAssistant) (controller : Heos)
  : list registry_call :=
  [ async_register HEOS_DOMAIN SERVICE_SIGN_IN
      (partial_sign_in controller) HEOS_SIGN_IN_SCHEMA;
    async_register HEOS_DOMAIN SERVICE_SIGN_OUT
      (partial_sign_out controller) HEOS_SIGN_OUT_SCHEMA;
    async_register HEOS_DOMAIN media_player.SERVICE_JOIN
      (partial_join controller hass) HEOS_JOIN_SCHEMA;
    async_register HEOS_DOMAIN media_player.SERVICE_UNJOIN
      (partial_unjoin controller hass) HEOS_UNJOIN_SCHEMA ].

Definition remove (hass : HomeAssistant) : list registry_call :=
  [ async_remove HEOS_DOMAIN SERVICE_SIGN_IN;
    async_remove HEOS_DOMAIN SERVICE_SIGN_OUT;
    async_remove HEOS_DOMAIN media_player.SERVICE_JOIN;
    async_remove HEOS_DOMAIN media_player.SERVICE_UNJOIN ].

End Registration.

(** The (domain, service) pairs a sequence of registry calls registers,
    and the pairs it removes. *)
Definition registered (cs : list registry_call) : list (string * string) :=
  omap (fun c => match c with
                 | async_register d s _ _ => Some (d, s)
                 | async_remove _ _ => None
                 end) cs.

Definition removed (cs : list registry_call) : list (string * string) :=
  omap (fun c => match c with
                 | async_remove d s => Some (d, s)
                 | async_register _ _ _ _ => None
                 end) cs.

(** ** First runs: the scenarios of the reconciler *)

Example scenario_join_existing :
  operations (trace (_join_handler (online [(10, group 1 [2; 3])]) house
                       (join_request "media_player.p1" ["media_player.p4"])))
  = [update_group 10 {[2; 3; 4]}].
Proof. vm_compute. reflexivity. Qed.

Example scenario_join_new :
  operations (trace (_join_handler (online []) house
                       (join_request "media_player.p1" ["media_player.p2"])))
  = [create_group 1 {[2]}].
Proof. vm_compute. reflexivity. Qed.

Example scenario_unjoin_member :
  operations (trace (_unjoin_handler (online [(10, group 1 [2; 3])]) house
                       (unjoin_request ["media_player.p3"])))
  = [update_group 10 {[2]}].
Proof. vm_compute. reflexivity. Qed.

Example scenario_unjoin_leader :
  operations (trace (_unjoin_handler (online [(10, group 1 [2; 3])]) house
                       (unjoin_request ["media_player.p1"])))
  = [remove_group 10].
Proof. vm_compute. reflexivity. Qed.

Example scenario_unjoin_last_member :
  operations (trace (_unjoin_handler (online [(10, group 1 [2])]) house
                       (unjoin_request ["media_player.p2"])))
  = [remove_group 10].
Proof. vm_compute. reflexivity. Qed.

(** ** Laws of the monad *)

Section Monad.
Context {A B : Type}.

Lemma bind_ok (t : list event) (a : A) (f : A -> py B) :
  ((t, inr a) ≫= f : py B) = (t ++ trace (f a), outcome (f a)).
Proof. unfold mbind, py_bind. destruct (f a); reflexivity. Qed.

Lemma trace_bind_ok (m : py A) (a : A) (f : A -> py B) :
  outcome m = inr a -> trace (m ≫= f) = trace m ++ trace (f a).
Proof. destruct m as [t r]; intros H; simpl in H; subst r. now rewrite bind_ok. Qed.

Lemma outcome_bind_ok (m : py A) (a : A) (f : A -> py B) :
  outcome m = inr a -> outcome (m ≫= f) = outcome (f a).
Proof. destruct m as [t r]; intros H; simpl in H; subst r. now rewrite bind_ok. Qed.
End Monad.

Lemma log_then {B} (lvl : level) (fmt : string) (k : py B) :
  (log lvl fmt;; k) = (Log lvl fmt :: trace k, outcome k).
Proof. unfold log. now rewrite bind_ok. Qed.

(** A call whose [HeosError] is caught and logged always returns, and
    the call is the only thing it sends. *)
Lemma guarded_await controller (c : command) (fmt : string) :
  let m := try_except (await controller c)
             (except_HeosError (log ERROR fmt)) in
  outcome m = inr tt /\ calls (trace m) = [c].
Proof.
  unfold try_except, await, except_HeosError.
  destruct (command_answer controller c); simpl; auto.
Qed.

Lemma calls_app t1 t2 : calls (t1 ++ t2) = calls t1 ++ calls t2.
Proof. apply omap_app. Qed.

Lemma operations_app t1 t2 :
  operations (t1 ++ t2) = operations t1 ++ operations t2.
Proof. apply omap_app. Qed.

Lemma operations_cons ev t :
  operations (ev :: t)
  = match operation_of ev with
    | Some c => c :: operations t
    | None => operations t
    end.
Proof. reflexivity. Qed.

Lemma calls_cons ev t :
  calls (ev :: t)
  = match ev with Await c => c :: calls t | Log _ _ => calls t end.
Proof. now destruct ev. Qed.

(** A loop whose body always returns runs the body on every element. *)
Lemma for_each_returns {A} (l : list A) (body : A -> py unit) :
  (forall x, x ∈ l -> outcome (body x) = inr tt) ->
  outcome (for_each l body) = inr tt
  /\ trace (for_each l body) = l ≫= (fun x => trace (body x)).
Proof.
  induction l as [|x l IH]; intros Hbody; simpl; [auto|].
  assert (Hx : outcome (body x) = inr tt) by (apply Hbody; left).
  destruct IH as [IHo IHt]; [intros y Hy; apply Hbody; now right|].
  rewrite (outcome_bind_ok _ tt), (trace_bind_ok _ tt) by exact Hx.
  now rewrite IHt.
Qed.

Lemma not_connected controller :
  connection_state controller <> pyheos.STATE_CONNECTED ->
  connected controller = false.
Proof. intros H. now apply String.eqb_neq. Qed.

(** What the guarded fetch of the group snapshot gives. *)
Lemma fetch_ok controller gs (h : exn -> py (option groups_dict)) :
  groups_answer controller = inr gs ->
  try_except (g ← await_get_groups controller true; mret (Some g)) h
  = ([Await (get_groups true)], inr (Some gs)).
Proof. unfold await_get_groups. now intros ->. Qed.

Lemma fetch_failed controller e (fmt : string) :
  groups_answer controller = inl e ->
  try_except (g ← await_get_groups controller true; mret (Some g))
    (except_HeosError (log ERROR fmt;; mret (@None groups_dict)))
  = ([Await (get_groups true); Log ERROR fmt], inr None).
Proof. unfold await_get_groups. now intros ->. Qed.

(** ** The connection gate *)

(** C8: when the controller is not in the connected state, each of the
    four handlers (sign in, sign out, join, unjoin) only writes its error
    record and returns: nothing is sent to the controller. *)
Theorem not_connected_rejects_every_action
    controller hass (s : sign_in_data) (j : join_data) (u : unjoin_data) :
  connection_state controller <> pyheos.STATE_CONNECTED ->
  _sign_in_handler controller s
    = ([Log ERROR "Unable to sign in because HEOS is not connected"], inr tt)
  /\ _sign_out_handler controller
    = ([Log ERROR "Unable to sign out because HEOS is not connected"], inr tt)
  /\ _join_handler controller hass j
    = ([Log ERROR "Unable to join because HEOS is not connected"], inr tt)
  /\ _unjoin_handler controller hass u
    = ([Log ERROR "Unable to unjoin because HEOS is not connected"], inr tt).
Proof.
  intros H%not_connected.
  unfold _sign_in_handler, _sign_out_handler, _join_handler, _unjoin_handler.
  rewrite H. simpl. repeat split.
Qed.

Lemma not_connected_rejects_every_action_witness :
  calls (trace (_join_handler offline house
                  (join_request "media_player.p1" ["media_player.p4"]))) = []
  /\ calls (trace (_unjoin_handler offline house (unjoin_request []))) = [].
Proof.
  destruct (not_connected_rejects_every_action offline house
              {| ATTR_USERNAME := "user"; ATTR_PASSWORD := "secret" |}
              (join_request "media_player.p1" ["media_player.p4"])
              (unjoin_request []))
    as (_ & _ & Hj & Hu).
  - vm_compute. discriminate.
  - rewrite Hj, Hu. split; reflexivity.
Defined.

(** ** Resolving entity ids to player ids *)

Lemma elem_of_ungroup_player_ids ents (ids : gset string) (pid : Z) :
  pid ∈ ungroup_player_ids ents ids
  <-> exists eid, HeosMediaPlayer eid pid ∈ ents /\ eid ∈ ids.
Proof.
  unfold ungroup_player_ids.
  enough (Hgen : forall acc : gset Z,
             pid ∈ foldl (fun acc player =>
                            match player with
                            | HeosMediaPlayer eid pid =>
                                if bool_decide (eid ∈ ids)
                                then acc ∪ {[pid]} else acc
                            | OtherMediaPlayer _ => acc
                            end) acc ents
             <-> pid ∈ acc
                 \/ exists eid, HeosMediaPlayer eid pid ∈ ents /\ eid ∈ ids).
  { rewrite Hgen. split; [|auto].
    intros [Hacc%not_elem_of_empty|?]; done. }
  induction ents as [|[eid p|eid] ents IH]; intros acc; simpl.
  - split; [auto|]. intros [?|(eid & Hin & _)]; [done|]. inversion Hin.
  - rewrite IH. case_bool_decide as Hid.
    + rewrite elem_of_union, elem_of_singleton. split.
      * intros [[?| ->]|(e & ? & ?)]; [auto| |].
        -- right. exists eid. split; [left|done].
        -- right. exists e. split; [now right|done].
      * intros [?|(e & Hin & ?)]; [auto|].
        apply elem_of_cons in Hin as [Heq|Hin].
        -- inversion Heq; subst. auto.
        -- right. eauto.
    + split.
      * intros [?|(e & ? & ?)]; [auto|]. right. exists e. split; [now right|done].
      * intros [?|(e & Hin & ?)]; [auto|].
        apply elem_of_cons in Hin as [Heq|Hin].
        -- inversion Heq; subst. done.
        -- right. eauto.
  - rewrite IH. split.
    + intros [?|(e & ? & ?)]; [auto|]. right. exists e. split; [now right|done].
    + intros [?|(e & Hin & ?)]; [auto|].
      apply elem_of_cons in Hin as [Heq|Hin]; [discriminate|].
      right. eauto.
Qed.

(** No requested entity id names a HEOS player exactly when the
    collected set of player ids is empty. *)
Lemma ungroup_player_ids_empty ents (ids : gset string) :
  ungroup_player_ids ents ids = ∅
  <-> forall eid pid, HeosMediaPlayer eid pid ∈ ents -> eid ∉ ids.
Proof.
  split.
  - intros Hempty eid pid Hin Hid.
    assert (pid ∈ ungroup_player_ids ents ids) as Hpid
      by (apply elem_of_ungroup_player_ids; eauto).
    rewrite Hempty in Hpid. set_solver.
  - intros Hnone. apply set_eq. intros pid.
    rewrite elem_of_ungroup_player_ids. split; [|set_solver].
    intros (eid & Hin & Hid). exfalso. eapply Hnone; eauto.
Qed.

(** ** The unjoin loop *)

Lemma operations_bind {A} (l : list A) (f : A -> list event) :
  operations (l ≫= f) = l ≫= (fun x => operations (f x)).
Proof.
  induction l as [|x l IH]; [reflexivity|].
  change ((x :: l) ≫= f) with (f x ++ (l ≫= f)).
  now rewrite operations_app, IH.
Qed.

Lemma unjoin_group_returns controller (ids : gset Z) item :
  outcome (unjoin_group controller ids item) = inr tt.
Proof.
  destruct item as [gid g]. unfold unjoin_group.
  repeat case_bool_decide;
    unfold try_except, await, except_HeosError, log; simpl;
    try destruct (command_answer controller _); reflexivity.
Qed.

(** The operations one turn of the loop sends for its group. *)
Lemma unjoin_group_operations controller (ids : gset Z) gid g :
  let member_player_ids : gset Z :=
    list_to_set (pyheos.player_id <$> pyheos.members g) in
  let keep := member_player_ids ∖ ids in
  operations (trace (unjoin_group controller ids (gid, g)))
  = if bool_decide (pyheos.player_id (pyheos.leader g) ∈ ids)
    then [remove_group gid]
    else if bool_decide (keep = ∅) then [remove_group gid]
    else if bool_decide (keep ≠ member_player_ids)
    then [update_group gid keep]
    else [].
Proof.
  unfold unjoin_group.
  repeat case_bool_decide;
    unfold try_except, await, except_HeosError, log; simpl;
    try destruct (command_answer controller _); reflexivity.
Qed.

Lemma unjoin_group_targets controller (ids : gset Z) item c :
  c ∈ operations (trace (unjoin_group controller ids item)) ->
  target c = Some item.1.
Proof.
  destruct item as [gid g]. rewrite unjoin_group_operations.
  repeat case_bool_decide; intros Hc;
    repeat (apply elem_of_cons in Hc as [->|Hc]; [reflexivity|]);
    inversion Hc.
Qed.

Section Filter.
Context {T : Type} (P : T -> Prop) `{forall x, Decision (P x)}.

Lemma filter_all (l : list T) : (forall x, x ∈ l -> P x) -> filter P l = l.
Proof.
  induction l as [|x l IH]; intros Hall; [reflexivity|].
  rewrite filter_cons_True by (apply Hall; left).
  f_equal. apply IH. intros y Hy. apply Hall. now right.
Qed.

Lemma filter_none (l : list T) :
  (forall x, x ∈ l -> ~ P x) -> filter P l = [].
Proof.
  induction l as [|x l IH]; intros Hnone; [reflexivity|].
  rewrite filter_cons_False by (apply Hnone; left).
  apply IH. intros y Hy. apply Hnone. now right.
Qed.
End Filter.

(** In a dict every key occurs once, so the operations aimed at one
    group are those of its own turn. *)
Lemma filter_target_bind {G} (f : Z * G -> list command)
    (gs : list (Z * G)) gid g :
  NoDup gs.*1 -> (gid, g) ∈ gs ->
  (forall item c, c ∈ f item -> target c = Some item.1) ->
  filter (fun c => target c = Some gid) (gs ≫= f) = f (gid, g).
Proof.
  intros Hnd Hin Htarget.
  assert (Hkeep : forall item, item.1 = gid ->
            filter (fun c => target c = Some gid) (f item) = f item).
  { intros item Hk. apply filter_all.
    intros c Hc. rewrite (Htarget item c Hc). now rewrite Hk. }
  assert (Hother : forall item, item.1 <> gid ->
            filter (fun c => target c = Some gid) (f item) = []).
  { intros item Hk. apply filter_none.
    intros c Hc Heq. rewrite (Htarget item c Hc) in Heq. congruence. }
  assert (Hdrop : forall l : list (Z * G), gid ∉ l.*1 ->
            filter (fun c => target c = Some gid) (l ≫= f) = []).
  { intros l Hl. apply filter_none.
    intros c (item & Hc & Hitem)%list_elem_of_bind Heq.
    rewrite (Htarget item c Hc) in Heq. inversion Heq; subst.
    apply Hl, list_elem_of_fmap. eauto. }
  induction gs as [|[k h] gs IH]; [inversion Hin|].
  rewrite fmap_cons in Hnd. apply NoDup_cons in Hnd as [Hk Hnd].
  change (((k, h) :: gs) ≫= f) with (f (k, h) ++ (gs ≫= f)).
  rewrite filter_app.
  apply elem_of_cons in Hin as [Heq|Hin].
  - inversion Heq; subst k h. rewrite (Hkeep (gid, g)) by reflexivity.
    rewrite Hdrop by exact Hk. apply app_nil_r.
  - assert (k <> gid).
    { intros ->. apply Hk, list_elem_of_fmap. exists (gid, g). auto. }
    rewrite IH by assumption. now rewrite (Hother (k, h)).
Qed.

(** The handler once it is connected and has fetched the snapshot, for a
    request that names at least one HEOS player: it returns, and what it
    sends is what the turns of the loop send, group after group. *)
Lemma unjoin_run controller hass service gs :
  connected controller = true ->
  groups_answer controller = inr gs ->
  let ids := ungroup_player_ids (entities hass)
               (list_to_set (unjoin_ATTR_ENTITY_ID service)) in
  ids <> ∅ ->
  let run := _unjoin_handler controller hass service in
  outcome run = inr tt
  /\ operations (trace run)
     = gs ≫= (fun item => operations (trace (unjoin_group controller ids item))).
Proof.
  intros Hc Hg ids Hids run. subst run. unfold _unjoin_handler.
  rewrite Hc. cbn [negb].
  rewrite (fetch_ok _ gs) by exact Hg. rewrite bind_ok.
  case_bool_decide as Hreq.
  { exfalso. apply Hids. apply ungroup_player_ids_empty.
    intros eid pid _. rewrite Hreq. apply not_elem_of_empty. }
  fold ids. rewrite bool_decide_eq_false_2 by exact Hids.
  destruct (for_each_returns gs (unjoin_group controller ids)) as [Ho Ht].
  { intros item _. apply unjoin_group_returns. }
  rewrite log_then. cbn [trace outcome fst snd].
  split; [exact Ho|].
  rewrite Ht. cbn [app].
  rewrite !operations_cons, operations_bind. reflexivity.
Qed.

(** ** Unjoin: the claims *)

(** C5: an unjoin request with no entity ids, on a connected controller
    whose snapshot was fetched, sends one [remove_group] per group of the
    snapshot, in the order of the snapshot, and no other operation: as
    many operations as there are groups. *)
Theorem unjoin_empty_request_removes_every_group
    controller hass service gs :
  connected controller = true ->
  groups_answer controller = inr gs ->
  unjoin_ATTR_ENTITY_ID service = [] ->
  let run := _unjoin_handler controller hass service in
  operations (trace run) = remove_group <$> gs.*1
  /\ calls (trace run) = get_groups true :: (remove_group <$> gs.*1)
  /\ length (operations (trace run)) = length gs
  /\ outcome run = inr tt.
Proof.
  intros Hc Hg Hreq run. subst run. unfold _unjoin_handler.
  rewrite Hc, Hreq. cbn [negb].
  rewrite (fetch_ok _ gs) by exact Hg. rewrite bind_ok.
  rewrite bool_decide_eq_true_2 by reflexivity.
  set (body := fun item : Z * pyheos.HeosGroup =>
                 try_except (await controller (remove_group item.1))
                   (except_HeosError
                      (log ERROR "Failed to remove HEOS group %s: %s"))).
  destruct (for_each_returns gs body) as [Ho Ht].
  { intros item _. apply guarded_await. }
  fold body. rewrite log_then. cbn [trace outcome fst snd].
  rewrite Ht.
  assert (Hops : operations (gs ≫= (fun x => trace (body x)))
                 = remove_group <$> gs.*1).
  { clear. induction gs as [|[gid g] gs IH]; [reflexivity|].
    change (((gid, g) :: gs) ≫= (fun x => trace (body x)))
      with (trace (body (gid, g)) ++ (gs ≫= (fun x => trace (body x)))).
    rewrite operations_app, IH. unfold body, try_except, await, except_HeosError.
    simpl. destruct (command_answer controller _); reflexivity. }
  assert (Hcalls : calls (gs ≫= (fun x => trace (body x)))
                   = remove_group <$> gs.*1).
  { clear. induction gs as [|[gid g] gs IH]; [reflexivity|].
    change (((gid, g) :: gs) ≫= (fun x => trace (body x)))
      with (trace (body (gid, g)) ++ (gs ≫= (fun x => trace (body x)))).
    rewrite calls_app, IH. unfold body, try_except, await, except_HeosError.
    simpl. destruct (command_answer controller _); reflexivity. }
  cbn [app]. rewrite !operations_cons, !calls_cons, Hops, Hcalls.
  cbn [operation_of]. rewrite !length_fmap. auto.
Qed.

Lemma unjoin_empty_request_removes_every_group_witness :
  operations
    (trace (_unjoin_handler
              (rejects_remove_10 [(10, group 1 [2; 3]); (20, group 4 [5])])
              house (unjoin_request [])))
  = [remove_group 10; remove_group 20].
Proof.
  exact (proj1 (unjoin_empty_request_removes_every_group
                  (rejects_remove_10 [(10, group 1 [2; 3]); (20, group 4 [5])])
                  house (unjoin_request []) _ eq_refl eq_refl eq_refl)).
Defined.

Lemma list_to_set_nonempty (l : list string) :
  l <> [] -> list_to_set l ≠@{gset string} ∅.
Proof.
  destruct l as [|x l]; [done|]. intros _ Hempty.
  assert (x ∈@{gset string} list_to_set (x :: l)) as Hx
    by (apply elem_of_list_to_set; left).
  rewrite Hempty in Hx. now apply not_elem_of_empty in Hx.
Qed.

(** C3: on a connected controller whose snapshot was fetched, a group
    whose leader's player id is among the resolved ids to remove gets
    [remove_group], and that is the only operation aimed at it, whatever
    else the request names. *)
Theorem unjoin_targeted_leader_removes_group
    controller hass service gs gid g :
  connected controller = true ->
  groups_answer controller = inr gs ->
  NoDup gs.*1 ->
  (gid, g) ∈ gs ->
  pyheos.player_id (pyheos.leader g)
    ∈ ungroup_player_ids (entities hass)
        (list_to_set (unjoin_ATTR_ENTITY_ID service)) ->
  let run := _unjoin_handler controller hass service in
  remove_group gid ∈ operations (trace run)
  /\ filter (fun c => target c = Some gid) (operations (trace run))
     = [remove_group gid]
  /\ outcome run = inr tt.
Proof.
  intros Hc Hg Hnd Hin Hleader run.
  destruct (unjoin_run controller hass service gs Hc Hg) as [Ho Hops].
  { intros Hempty. rewrite Hempty in Hleader.
    now apply not_elem_of_empty in Hleader. }
  subst run. rewrite Hops.
  assert (Hturn : operations
                    (trace (unjoin_group controller
                              (ungroup_player_ids (entities hass)
                                 (list_to_set (unjoin_ATTR_ENTITY_ID service)))
                              (gid, g)))
                  = [remove_group gid]).
  { rewrite unjoin_group_operations.
    now rewrite bool_decide_eq_true_2 by exact Hleader. }
  repeat split.
  - apply list_elem_of_bind. exists (gid, g). split; [|exact Hin].
    rewrite Hturn. left.
  - rewrite (filter_target_bind _ gs gid g Hnd Hin).
    + exact Hturn.
    + intros item c. apply unjoin_group_targets.
  - exact Ho.
Qed.

Lemma unjoin_targeted_leader_removes_group_witness :
  filter (fun c => target c = Some 10)
    (operations
       (trace (_unjoin_handler
                 (online [(10, group 1 [2; 3]); (20, group 4 [5])]) house
                 (unjoin_request ["media_player.p1"; "media_player.p3"]))))
  = [remove_group 10].
Proof.
  refine (proj1 (proj2 (unjoin_targeted_leader_removes_group
                   (online [(10, group 1 [2; 3]); (20, group 4 [5])]) house
                   (unjoin_request ["media_player.p1"; "media_player.p3"])
                   _ 10 (group 1 [2; 3]) eq_refl eq_refl _ _ _))).
  - apply (bool_decide_unpack _). vm_compute. exact I.
  - left.
  - apply (bool_decide_unpack _). vm_compute. exact I.
Defined.

(** C4: on a connected controller whose snapshot was fetched, for a
    request that resolves to at least one player id and a group whose
    leader is not among them, with keep = members minus the resolved
    ids: the operations aimed at the group are [remove_group] alone when
    keep is empty, else [update_group] with keep alone when keep differs
    from the members, else none (no member was named). *)
Theorem unjoin_spared_leader_shrinks_group
    controller hass service gs gid g :
  connected controller = true ->
  groups_answer controller = inr gs ->
  NoDup gs.*1 ->
  (gid, g) ∈ gs ->
  let removeIds := ungroup_player_ids (entities hass)
                     (list_to_set (unjoin_ATTR_ENTITY_ID service)) in
  let members : gset Z :=
    list_to_set (pyheos.player_id <$> pyheos.members g) in
  let keep := members ∖ removeIds in
  let ops := filter (fun c => target c = Some gid)
               (operations (trace (_unjoin_handler controller hass service))) in
  removeIds <> ∅ ->
  pyheos.player_id (pyheos.leader g) ∉ removeIds ->
  (keep = ∅ -> ops = [remove_group gid])
  /\ (keep <> ∅ -> keep <> members -> ops = [update_group gid keep])
  /\ (keep <> ∅ -> members ∩ removeIds = ∅ -> ops = []).
Proof.
  intros Hc Hg Hnd Hin removeIds members keep ops Hids Hleader.
  destruct (unjoin_run controller hass service gs Hc Hg Hids) as [_ Hops].
  assert (Hturn : ops = operations (trace (unjoin_group controller removeIds (gid, g)))).
  { subst ops. rewrite Hops.
    apply (filter_target_bind
             (fun item => operations (trace (unjoin_group controller removeIds item)))
             gs gid g Hnd Hin).
    intros item c. apply unjoin_group_targets. }
  rewrite Hturn, unjoin_group_operations.
  rewrite bool_decide_eq_false_2 by exact Hleader.
  fold members. fold keep.
  split; [|split].
  - intros Hk. now rewrite bool_decide_eq_true_2 by exact Hk.
  - intros Hk Hne. rewrite bool_decide_eq_false_2 by exact Hk.
    now rewrite bool_decide_eq_true_2 by exact Hne.
  - intros Hk Hdisj. rewrite bool_decide_eq_false_2 by exact Hk.
    rewrite bool_decide_eq_false_2; [reflexivity|].
    intros Hne. apply Hne. subst keep. apply set_eq. intros x.
    rewrite elem_of_difference. split; [tauto|].
    intros Hx. split; [exact Hx|]. intros Hr.
    assert (x ∈ members ∩ removeIds) as Hboth by (apply elem_of_intersection; auto).
    rewrite Hdisj in Hboth. now apply not_elem_of_empty in Hboth.
Qed.

Lemma unjoin_spared_leader_shrinks_group_witness :
  filter (fun c => target c = Some 10)
    (operations
       (trace (_unjoin_handler (online [(10, group 1 [2; 3])]) house
                 (unjoin_request ["media_player.p3"]))))
  = [update_group 10 {[2]}].
Proof.
  refine (proj1 (proj2 (unjoin_spared_leader_shrinks_group
                   (online [(10, group 1 [2; 3])]) house
                   (unjoin_request ["media_player.p3"])
                   _ 10 (group 1 [2; 3]) eq_refl eq_refl _ _ _ _)) _ _).
  - apply (bool_decide_unpack _). vm_compute. exact I.
  - left.
  - apply (bool_decide_unpack _). vm_compute. exact I.
  - apply (bool_decide_unpack _). vm_compute. exact I.
  - apply (bool_decide_unpack _). vm_compute. exact I.
  - apply (bool_decide_unpack _). vm_compute. exact I.
Defined.

(** C7: an unjoin request that names entity ids none of which belongs to
    a HEOS player sends no group operation and returns; on a connected
    controller whose snapshot was fetched, the run is the fetch, the
    debug record and the no-player error record, and nothing more. *)
Theorem unjoin_no_matching_player_aborts controller hass service :
  unjoin_ATTR_ENTITY_ID service <> [] ->
  (forall eid pid, HeosMediaPlayer eid pid ∈ entities hass ->
                   eid ∉ unjoin_ATTR_ENTITY_ID service) ->
  let run := _unjoin_handler controller hass service in
  operations (trace run) = []
  /\ outcome run = inr tt
  /\ (connected controller = true ->
      forall gs, groups_answer controller = inr gs ->
      run = ([Await (get_groups true);
              Log DEBUG "HEOS - trying to ungroup: %s";
              Log ERROR "Could not find a HEOS player for %s"], inr tt)).
Proof.
  intros Hreq Hnone run.
  assert (Hids : ungroup_player_ids (entities hass)
                   (list_to_set (unjoin_ATTR_ENTITY_ID service)) = ∅).
  { apply ungroup_player_ids_empty. intros eid pid Hin Hid.
    apply elem_of_list_to_set in Hid. eapply Hnone; eauto. }
  assert (Hfetched : forall gs, connected controller = true ->
            groups_answer controller = inr gs ->
            run = ([Await (get_groups true);
                    Log DEBUG "HEOS - trying to ungroup: %s";
                    Log ERROR "Could not find a HEOS player for %s"], inr tt)).
  { intros gs Hc Hg. subst run. unfold _unjoin_handler.
    rewrite Hc. cbn [negb].
    rewrite (fetch_ok _ gs) by exact Hg. rewrite bind_ok.
    rewrite bool_decide_eq_false_2 by (now apply list_to_set_nonempty).
    rewrite Hids, bool_decide_eq_true_2 by reflexivity.
    rewrite log_then. reflexivity. }
  destruct (connected controller) eqn:Hc.
  - destruct (groups_answer controller) as [e|gs] eqn:Hg.
    + assert (run = ([Await (get_groups true);
                      Log ERROR "Failed to get HEOS groups: %s"], inr tt)) as ->.
      { subst run. unfold _unjoin_handler. rewrite Hc. cbn [negb].
        rewrite (fetch_failed _ e) by exact Hg. now rewrite bind_ok. }
      repeat split. intros _ gs' Hgs. discriminate.
    + rewrite (Hfetched gs) by auto. repeat split.
  - assert (run = ([Log ERROR "Unable to unjoin because HEOS is not connected"],
                   inr tt)) as ->.
    { subst run. unfold _unjoin_handler. now rewrite Hc. }
    repeat split. intros Habs. discriminate.
Qed.

Lemma unjoin_no_matching_player_aborts_witness :
  _unjoin_handler (online [(10, group 1 [2; 3])]) house
    (unjoin_request ["media_player.tv"; "media_player.unknown"])
  = ([Await (get_groups true);
      Log DEBUG "HEOS - trying to ungroup: %s";
      Log ERROR "Could not find a HEOS player for %s"], inr tt).
Proof.
  refine (proj2 (proj2 (unjoin_no_matching_player_aborts
                   (online [(10, group 1 [2; 3])]) house
                   (unjoin_request ["media_player.tv"; "media_player.unknown"])
                   _ _)) eq_refl _ eq_refl).
  - discriminate.
  - intros eid pid Hin Hid. simpl in Hin, Hid.
    repeat (apply elem_of_cons in Hin as [Heq|Hin];
            [try discriminate; inversion Heq; subst;
             repeat (apply elem_of_cons in Hid as [Hid|Hid]; [discriminate|]);
             inversion Hid|]).
    inversion Hin.
Defined.

(** ** The join handler *)

Lemma truthy_Some (z : Z) : truthy (Some z) = true <-> z <> 0.
Proof. unfold truthy. rewrite negb_true_iff. apply Z.eqb_neq. Qed.

(** The leader loop finds nothing exactly when no HEOS entity has the
    leader's entity id. *)
Lemma find_leader_player_id_None ents (leader : string) :
  find_leader_player_id ents leader = None
  <-> forall pid, HeosMediaPlayer leader pid ∉ ents.
Proof.
  induction ents as [|[eid p|eid] ents IH]; simpl.
  - split; [intros _ pid Hin; inversion Hin|auto].
  - case_bool_decide as Heq.
    + subst eid. split; [discriminate|].
      intros Hnone. exfalso. apply (Hnone p). left.
    + rewrite IH. split; intros Hnone pid Hin.
      * apply elem_of_cons in Hin as [Hhd|Hin]; [congruence|].
        now apply (Hnone pid).
      * apply (Hnone pid). now right.
  - rewrite IH. split; intros Hnone pid Hin.
    + apply elem_of_cons in Hin as [Hhd|Hin]; [discriminate|].
      now apply (Hnone pid).
    + apply (Hnone pid). now right.
Qed.

Lemma find_leader_player_id_Some ents (leader : string) pid :
  find_leader_player_id ents leader = Some pid ->
  HeosMediaPlayer leader pid ∈ ents.
Proof.
  induction ents as [|[eid p|eid] ents IH]; simpl; [discriminate| |].
  - case_bool_decide as Heq.
    + intros [= ->]. subst eid. left.
    + intros H. right. auto.
  - intros H. right. auto.
Qed.

(** The resolved members: the player ids of the HEOS entities whose
    entity id the request lists. *)
Lemma elem_of_new_member_player_ids ents (members : list string) pid :
  pid ∈ new_member_player_ids ents members
  <-> exists eid, eid ∈ members /\ HeosMediaPlayer eid pid ∈ ents.
Proof.
  induction ents as [|[eid p|eid] ents IH]; simpl.
  - split; [intros H%not_elem_of_empty; done|].
    intros (eid & _ & Hin). inversion Hin.
  - case_bool_decide as Hm.
    + rewrite elem_of_union, elem_of_singleton, IH. split.
      * intros [->|(e & ? & ?)].
        -- exists eid. split; [done|left].
        -- exists e. split; [done|now right].
      * intros (e & He & Hin).
        apply elem_of_cons in Hin as [Hhd|Hin].
        -- inversion Hhd; subst. now left.
        -- right. eauto.
    + rewrite IH. split.
      * intros (e & ? & ?). exists e. split; [done|now right].
      * intros (e & He & Hin).
        apply elem_of_cons in Hin as [Hhd|Hin].
        -- inversion Hhd; subst. done.
        -- eauto.
  - rewrite IH. split.
    + intros (e & ? & ?). exists e. split; [done|now right].
    + intros (e & He & Hin).
      apply elem_of_cons in Hin as [Hhd|Hin]; [discriminate|eauto].
Qed.

(** The group loop: nothing found when no group is led by the leader,
    and the first such group otherwise. *)
Lemma find_existing_group_none (gs : groups_dict) (L : Z) :
  (forall gid g, (gid, g) ∈ gs -> pyheos.player_id (pyheos.leader g) <> L) ->
  find_existing_group gs L = (None, ∅).
Proof.
  induction gs as [|[k h] gs IH]; intros Hnone; simpl; [reflexivity|].
  rewrite bool_decide_eq_false_2 by (apply (Hnone k); left).
  apply IH. intros gid g Hin. apply (Hnone gid). now right.
Qed.

Lemma find_existing_group_first (pre post : groups_dict) gid g (L : Z) :
  (forall k h, (k, h) ∈ pre -> pyheos.player_id (pyheos.leader h) <> L) ->
  pyheos.player_id (pyheos.leader g) = L ->
  find_existing_group (pre ++ (gid, g) :: post) L
  = (Some gid, list_to_set (pyheos.player_id <$> pyheos.members g)).
Proof.
  intros Hpre Hg.
  induction pre as [|[k h] pre IH]; simpl.
  - now rewrite bool_decide_eq_true_2 by exact Hg.
  - rewrite bool_decide_eq_false_2 by (apply (Hpre k); left).
    apply IH. intros k' h' Hin. apply (Hpre k'). now right.
Qed.

(** When every group has its own leader, the group led by the leader is
    the one the loop finds, wherever it stands in the snapshot. *)
Lemma find_existing_group_unique (gs : groups_dict) gid g (L : Z) :
  (gid, g) ∈ gs ->
  pyheos.player_id (pyheos.leader g) = L ->
  (forall k h, (k, h) ∈ gs -> pyheos.player_id (pyheos.leader h) = L ->
               (k, h) = (gid, g)) ->
  find_existing_group gs L
  = (Some gid, list_to_set (pyheos.player_id <$> pyheos.members g)).
Proof.
  intros Hin Hg Huniq.
  induction gs as [|[k h] gs IH]; [inversion Hin|]. simpl.
  case_bool_decide as Hh.
  - assert ((k, h) = (gid, g)) as [= -> ->] by (apply Huniq; [left|exact Hh]).
    reflexivity.
  - apply elem_of_cons in Hin as [Hhd|Hin]; [congruence|].
    apply IH; [exact Hin|].
    intros k' h' Hin' Hl. apply Huniq; [now right|exact Hl].
Qed.

(** The handler once it is connected, has fetched the snapshot and has
    accepted the leader's player id: it returns after one operation. *)
Lemma join_run controller hass service gs (L : Z) :
  connected controller = true ->
  groups_answer controller = inr gs ->
  find_leader_player_id (entities hass) (ATTR_GROUP_LEADER service) = Some L ->
  L <> 0 ->
  let run := _join_handler controller hass service in
  let existing := find_existing_group gs L in
  let all_member_player_ids :=
    new_member_player_ids (entities hass) (join_ATTR_ENTITY_ID service)
      ∪ existing.2 in
  outcome run = inr tt
  /\ operations (trace run)
     = [if truthy existing.1
        then update_group (default 0 existing.1) all_member_player_ids
        else create_group L all_member_player_ids].
Proof.
  intros Hc Hg Hl HL run existing all_ids. subst run all_ids existing.
  unfold _join_handler. rewrite Hc. cbn [negb].
  rewrite (fetch_ok _ gs) by exact Hg. rewrite bind_ok.
  rewrite Hl. rewrite (proj2 (truthy_Some L) HL).
  cbn [negb default from_option id].
  destruct (find_existing_group gs L) as [existing_id existing_members].
  cbn [fst snd].
  destruct (truthy existing_id);
    rewrite log_then; cbn [trace outcome fst snd];
    unfold try_except, await, except_HeosError, log;
    destruct (command_answer controller _); simpl; auto.
Qed.

(** X17: joining a leader that leads a group with a non-zero id (and has a
    non-zero player id itself) updates that group with the union of the
    resolved members and the members it already has. *)
Lemma join_updates_existing_group controller hass service gs (L gid : Z) g :
  connected controller = true ->
  groups_answer controller = inr gs ->
  find_leader_player_id (entities hass) (ATTR_GROUP_LEADER service) = Some L ->
  L <> 0 ->
  (gid, g) ∈ gs ->
  pyheos.player_id (pyheos.leader g) = L ->
  (forall k h, (k, h) ∈ gs -> pyheos.player_id (pyheos.leader h) = L ->
               (k, h) = (gid, g)) ->
  gid <> 0 ->
  operations (trace (_join_handler controller hass service))
  = [update_group gid
       (new_member_player_ids (entities hass) (join_ATTR_ENTITY_ID service)
          ∪ list_to_set (pyheos.player_id <$> pyheos.members g))].
Proof.
  intros Hc Hg Hl HL Hin Hlead Huniq Hgid.
  destruct (join_run controller hass service gs L Hc Hg Hl HL) as [_ ->].
  rewrite (find_existing_group_unique gs gid g L Hin Hlead Huniq).
  cbn [fst snd]. now rewrite (proj2 (truthy_Some gid) Hgid).
Qed.


(** After a failed fetch the handler goes on to the leader: it reports
    an unresolved leader as usual, and with a resolved leader it reaches
    the loop over [groups], a name that was never bound. *)
Lemma join_after_failed_fetch controller hass service e :
  connected controller = true ->
  groups_answer controller = inl e ->
  _join_handler controller hass service
  = if truthy (find_leader_player_id (entities hass)
                 (ATTR_GROUP_LEADER service))
    then ([Await (get_groups true);
           Log ERROR "Could not get HEOS group info while joining group. %s"],
          inl (UnboundLocalError "groups"))
    else ([Await (get_groups true);
           Log ERROR "Could not get HEOS group info while joining group. %s";
           Log ERROR "Failed to determine HEOS player_id for %s"],
          inr tt).
Proof.
  intros Hc Hg. unfold _join_handler. rewrite Hc. cbn [negb].
  rewrite (fetch_failed _ e) by exact Hg. rewrite bind_ok.
  destruct (truthy _); reflexivity.
Qed.

(** A leader id the handler does not accept (no HEOS entity has it, or
    the entity's player id is not truthy) ends the run on the
    player-id error record, before any group operation. *)
Lemma join_leader_not_accepted controller hass service :
  connected controller = true ->
  truthy (find_leader_player_id (entities hass) (ATTR_GROUP_LEADER service))
    = false ->
  let run := _join_handler controller hass service in
  last (trace run)
    = Some (Log ERROR "Failed to determine HEOS player_id for %s")
  /\ operations (trace run) = []
  /\ outcome run = inr tt.
Proof.
  intros Hc Hl run. subst run.
  destruct (groups_answer controller) as [e|gs] eqn:Hg.
  - rewrite (join_after_failed_fetch _ _ _ e Hc Hg), Hl. repeat split.
  - unfold _join_handler. rewrite Hc. cbn [negb].
    rewrite (fetch_ok _ gs) by exact Hg. rewrite bind_ok, Hl.
    repeat split.
Qed.

Lemma new_member_player_ids_drop ents (ms1 ms2 : list string) (u : string) :
  (forall pid, HeosMediaPlayer u pid ∉ ents) ->
  new_member_player_ids ents (ms1 ++ u :: ms2)
  = new_member_player_ids ents (ms1 ++ ms2).
Proof.
  intros Hu. apply set_eq. intros pid.
  rewrite !elem_of_new_member_player_ids.
  split; intros (eid & Hm & Hin); exists eid; (split; [|exact Hin]).
  - apply elem_of_app in Hm as [Hm|Hm]; [apply elem_of_app; now left|].
    apply elem_of_cons in Hm as [->|Hm]; [now apply Hu in Hin|].
    apply elem_of_app; now right.
  - apply elem_of_app in Hm as [Hm|Hm]; apply elem_of_app; [now left|].
    right. now right.
Qed.

(** Two requests for the same leader whose members resolve to the same
    player ids send the same calls, end the same way and write as many
    error records. *)
Lemma join_same_resolved_members
    controller hass (leader : string) (ms ms' : list string) :
  new_member_player_ids (entities hass) ms
  = new_member_player_ids (entities hass) ms' ->
  let run := _join_handler controller hass (join_request leader ms) in
  let run' := _join_handler controller hass (join_request leader ms') in
  calls (trace run) = calls (trace run')
  /\ outcome run = outcome run'
  /\ length (error_records (trace run)) = length (error_records (trace run')).
Proof.
  intros Hsame run run'.
  assert (run = run') as ->; [|auto].
  subst run run'. unfold _join_handler, join_request.
  cbn [ATTR_GROUP_LEADER join_ATTR_ENTITY_ID]. now rewrite Hsame.
Qed.

(** In a house where entity ids are not shared, the leader loop finds
    the player id of the HEOS entity that has the leader's id. *)
Lemma find_leader_player_id_unique ents (leader : string) (L : Z) :
  HeosMediaPlayer leader L ∈ ents ->
  (forall pid, HeosMediaPlayer leader pid ∈ ents -> pid = L) ->
  find_leader_player_id ents leader = Some L.
Proof.
  intros Hin Huniq.
  destruct (find_leader_player_id ents leader) as [pid|] eqn:Hfind.
  - f_equal. now apply Huniq, find_leader_player_id_Some.
  - exfalso. exact (proj1 (find_leader_player_id_None ents leader) Hfind L Hin).
Qed.

(** When no two groups have the leader [L], the members the group loop
    returns are the members of the group led by [L]. *)
Lemma elem_of_find_existing_group (gs : groups_dict) (L pid : Z) :
  (forall k h k' h',
     (k, h) ∈ gs -> (k', h') ∈ gs ->
     pyheos.player_id (pyheos.leader h) = L ->
     pyheos.player_id (pyheos.leader h') = L ->
     (k, h) = (k', h')) ->
  pid ∈ (find_existing_group gs L).2
  <-> exists gid g,
        (gid, g) ∈ gs
        /\ pyheos.player_id (pyheos.leader g) = L
        /\ pid ∈ pyheos.player_id <$> pyheos.members g.
Proof.
  intros Huniq.
  destruct (decide (Exists (fun item : Z * pyheos.HeosGroup =>
                              pyheos.player_id (pyheos.leader item.2) = L) gs))
    as [([gid g] & Hin & Hl)%Exists_exists|Hnone].
  2: assert (Hnone' : ~ exists gid g,
               (gid, g) ∈ gs /\ pyheos.player_id (pyheos.leader g) = L)
       by (intros (gid & g & Hin & Hl); apply Hnone, Exists_exists;
           exists (gid, g); auto);
     clear Hnone; rename Hnone' into Hnone.
  - cbn [snd] in Hl. rewrite (find_existing_group_unique gs gid g L Hin Hl).
    + cbn [snd]. rewrite elem_of_list_to_set. split; [eauto|].
      intros (k & h & Hk & Hkl & Hp).
      assert ((k, h) = (gid, g)) as [= -> ->] by (now apply Huniq).
      exact Hp.
    + intros k h Hk Hkl. now apply Huniq.
  - rewrite find_existing_group_none.
    + split; [intros H%not_elem_of_empty; done|].
      intros (k & h & Hk & Hkl & _). exfalso. apply Hnone. eauto.
    + intros k h Hk Hkl. apply Hnone. eauto.
Qed.

(** ** Join: the claims *)

(** C9: in a join request, an entity id [u] that belongs to no HEOS
    player is dropped from the members silently: with it or without it
    the handler makes the same calls, ends the same way and writes as
    many error records.  The join goes on with the members that did
    resolve, even when there are none: when the leader's entity is a
    HEOS player with a non-zero player id, one operation is sent, and
    it carries exactly the resolved members and the members of the
    group the leader leads.  As the leader, the same id ends the run on
    the player-id error before any operation. *)
Theorem join_unmatched_member_dropped_leader_fails
    controller hass (leader u : string) (ms1 ms2 : list string) :
  (forall pid, HeosMediaPlayer u pid ∉ entities hass) ->
  let with_u :=
    _join_handler controller hass (join_request leader (ms1 ++ u :: ms2)) in
  let without_u :=
    _join_handler controller hass (join_request leader (ms1 ++ ms2)) in
  (calls (trace with_u) = calls (trace without_u)
   /\ outcome with_u = outcome without_u
   /\ length (error_records (trace with_u))
      = length (error_records (trace without_u)))
  /\ (connected controller = true ->
      forall gs L,
        groups_answer controller = inr gs ->
        HeosMediaPlayer leader L ∈ entities hass ->
        (forall pid, HeosMediaPlayer leader pid ∈ entities hass -> pid = L) ->
        L <> 0 ->
        (forall k h k' h',
           (k, h) ∈ gs -> (k', h') ∈ gs ->
           pyheos.player_id (pyheos.leader h) = L ->
           pyheos.player_id (pyheos.leader h') = L ->
           (k, h) = (k', h')) ->
        exists op,
          operations (trace with_u) = [op]
          /\ outcome with_u = inr tt
          /\ forall pid,
               pid ∈ member_ids op
               <-> (exists eid, eid ∈ ms1 ++ ms2
                                /\ HeosMediaPlayer eid pid ∈ entities hass)
                   \/ (exists gid g,
                         (gid, g) ∈ gs
                         /\ pyheos.player_id (pyheos.leader g) = L
                         /\ pid ∈ pyheos.player_id <$> pyheos.members g))
  /\ (connected controller = true ->
      forall ms,
        let run := _join_handler controller hass (join_request u ms) in
        last (trace run)
          = Some (Log ERROR "Failed to determine HEOS player_id for %s")
        /\ operations (trace run) = []
        /\ outcome run = inr tt).
Proof.
  intros Hu with_u without_u. split; [|split].
  - apply join_same_resolved_members.
    apply (new_member_player_ids_drop _ ms1 ms2 u Hu).
  - intros Hc gs L Hg Hin Hone HL Hgroups.
    assert (Hl : find_leader_player_id (entities hass) leader = Some L)
      by (now apply find_leader_player_id_unique).
    destruct (join_run controller hass (join_request leader (ms1 ++ u :: ms2))
                gs L Hc Hg Hl HL) as [Ho Hops].
    cbn [join_request join_ATTR_ENTITY_ID] in Hops.
    rewrite (new_member_player_ids_drop _ ms1 ms2 u Hu) in Hops.
    eexists. split; [exact Hops|]. split; [exact Ho|]. intros pid.
    rewrite <- (elem_of_find_existing_group gs L pid Hgroups).
    destruct (truthy _); cbn [member_ids];
      now rewrite elem_of_union, elem_of_new_member_player_ids.
  - intros Hc ms. apply join_leader_not_accepted; [exact Hc|].
    cbn [join_request ATTR_GROUP_LEADER].
    now rewrite (proj2 (find_leader_player_id_None (entities hass) u) Hu).
Qed.

Lemma join_unmatched_member_dropped_leader_fails_witness :
  let with_u :=
    _join_handler (online [(10, group 1 [2; 3])]) house
      (join_request "media_player.p1" ["media_player.p4"; "media_player.tv"]) in
  (calls (trace with_u)
   = calls (trace (_join_handler (online [(10, group 1 [2; 3])]) house
                     (join_request "media_player.p1" ["media_player.p4"]))))
  /\ (exists op,
        operations (trace with_u) = [op]
        /\ outcome with_u = inr tt
        /\ forall pid,
             pid ∈ member_ids op
             <-> (exists eid, eid ∈ ["media_player.p4"] ++ []
                              /\ HeosMediaPlayer eid pid ∈ entities house)
                 \/ (exists gid g,
                       (gid, g) ∈ [(10, group 1 [2; 3])]
                       /\ pyheos.player_id (pyheos.leader g) = 1
                       /\ pid ∈ pyheos.player_id <$> pyheos.members g))
  /\ operations
       (trace (_join_handler (online [(10, group 1 [2; 3])]) house
                 (join_request "media_player.tv" ["media_player.p4"]))) = [].
Proof.
  destruct (join_unmatched_member_dropped_leader_fails
              (online [(10, group 1 [2; 3])]) house
              "media_player.p1" "media_player.tv" ["media_player.p4"] [])
    as ((Hcalls & _ & _) & Hgoes & Hleader).
  - intros pid Hin. simpl in Hin.
    repeat (apply elem_of_cons in Hin as [Heq|Hin]; [discriminate|]).
    inversion Hin.
  - split; [exact Hcalls|]. split.
    + apply (Hgoes eq_refl [(10, group 1 [2; 3])] 1 eq_refl).
      * left.
      * intros pid Hin. simpl in Hin.
        apply elem_of_cons in Hin as [[= ->]|Hin]; [reflexivity|].
        repeat (apply elem_of_cons in Hin as [Heq|Hin]; [discriminate|]).
        inversion Hin.
      * discriminate.
      * intros k h k' h' Hk Hk' _ _.
        apply elem_of_cons in Hk as [->|Hk]; [|inversion Hk].
        apply elem_of_cons in Hk' as [->|Hk']; [reflexivity|inversion Hk'].
    + apply (Hleader eq_refl ["media_player.p4"]).
Defined.

(** C10: when the leader's entity id belongs to a HEOS player whose
    player id is not truthy (the int 0), the join handler, once
    connected, still ends on the player-id error record, sends no group
    operation and returns. *)
Theorem join_falsy_leader_player_id_reported_missing
    controller hass service (pid : Z) :
  connected controller = true ->
  find_leader_player_id (entities hass) (ATTR_GROUP_LEADER service)
    = Some pid ->
  truthy (Some pid) = false ->
  let run := _join_handler controller hass service in
  HeosMediaPlayer (ATTR_GROUP_LEADER service) pid ∈ entities hass
  /\ last (trace run)
     = Some (Log ERROR "Failed to determine HEOS player_id for %s")
  /\ operations (trace run) = []
  /\ outcome run = inr tt.
Proof.
  intros Hc Hl Hfalsy run. split.
  - now apply find_leader_player_id_Some.
  - apply join_leader_not_accepted; [exact Hc|]. now rewrite Hl.
Qed.

Lemma join_falsy_leader_player_id_reported_missing_witness :
  operations
    (trace (_join_handler (online [(10, group 5 [6])]) studio
              (join_request "media_player.p0" ["media_player.p7"]))) = [].
Proof.
  exact (proj1 (proj2 (proj2
           (join_falsy_leader_player_id_reported_missing
              (online [(10, group 5 [6])]) studio
              (join_request "media_player.p0" ["media_player.p7"]) 0
              eq_refl eq_refl eq_refl)))).
Defined.

(** C1, at a group whose id is 0: player 5 leads group 0 with member 6;
    joining player 7 to leader 5 sends [create_group] for the leader
    with members 6 and 7, not [update_group] on group 0, while with
    group id 10 the same request updates the group.  And when player 0
    leads a group, joining player 7 to it sends nothing at all. *)
Theorem join_leader_of_group_zero_sends_create :
  operations
    (trace (_join_handler (online [(0, group 5 [6])]) studio
              (join_request "media_player.p5" ["media_player.p7"])))
  = [create_group 5 {[6; 7]}]
  /\ operations
       (trace (_join_handler (online [(10, group 5 [6])]) studio
                 (join_request "media_player.p5" ["media_player.p7"])))
     = [update_group 10 {[6; 7]}]
  /\ operations
       (trace (_join_handler (online [(10, group 0 [6])]) studio
                 (join_request "media_player.p0" ["media_player.p7"])))
     = [].
Proof. repeat split; vm_compute; reflexivity. Qed.

(** C2, at a leader whose player id is 0: player 0 leads no group;
    joining player 7 to it ends on the player-id error record and sends
    no [create_group]. *)
Theorem join_leader_zero_without_group_sends_nothing :
  _join_handler (online []) studio
    (join_request "media_player.p0" ["media_player.p7"])
  = ([Await (get_groups true);
      Log ERROR "Failed to determine HEOS player_id for %s"], inr tt).
Proof. reflexivity. Qed.

(** C6, at a controller whose fetch fails: the join handler does not
    stop there.  With an unknown leader it goes on to report the
    unresolved leader; with a known leader it leaves through the
    unbound name [groups].  In neither run is a group operation sent. *)
Theorem join_goes_on_after_failed_fetch :
  _join_handler unreachable house
    (join_request "media_player.nobody" ["media_player.p4"])
  = ([Await (get_groups true);
      Log ERROR "Could not get HEOS group info while joining group. %s";
      Log ERROR "Failed to determine HEOS player_id for %s"], inr tt)
  /\ _join_handler unreachable house
       (join_request "media_player.p1" ["media_player.p4"])
     = ([Await (get_groups true);
         Log ERROR "Could not get HEOS group info while joining group. %s"],
        inl (UnboundLocalError "groups"))
  /\ _unjoin_handler unreachable house (unjoin_request ["media_player.p1"])
     = ([Await (get_groups true);
         Log ERROR "Failed to get HEOS groups: %s"], inr tt).
Proof. repeat split. Qed.

(** * Further properties of the handlers *)

(** ** The account handlers *)

(** X1: the sign-in handler never raises.  Not connected it sends
    nothing; connected it sends the credentials of the request once,
    unchanged, and a rejection is written as one error record: "Sign in
    failed" for [CommandFailedError], "Unable to sign in" for any other
    [HeosError]. *)
Theorem sign_in_sends_credentials_once controller (service : sign_in_data) :
  let run := _sign_in_handler controller service in
  let login := sign_in (ATTR_USERNAME service) (ATTR_PASSWORD service) in
  outcome run = inr tt
  /\ calls (trace run) = (if connected controller then [login] else [])
  /\ (if connected controller
      then error_records (trace run)
           = match command_answer controller login with
             | None => []
             | Some pyheos.CommandFailedError => ["Sign in failed: %s"]
             | Some pyheos.OtherHeosError => ["Unable to sign in: %s"]
             end
      else True).
Proof.
  unfold _sign_in_handler, try_except, await.
  destruct (connected controller); cbn [negb]; [|repeat split].
  destruct (command_answer controller _) as [[|]|]; repeat split.
Qed.

(** X2: the sign-out handler never raises and sends [sign_out] once when
    connected, nothing otherwise; a [HeosError] becomes the one error
    record "Unable to sign out". *)
Theorem sign_out_sends_once controller :
  let run := _sign_out_handler controller in
  outcome run = inr tt
  /\ calls (trace run) = (if connected controller then [sign_out] else [])
  /\ (if connected controller
      then error_records (trace run)
           = match command_answer controller sign_out with
             | None => []
             | Some _ => ["Unable to sign out: %s"]
             end
      else True).
Proof.
  unfold _sign_out_handler, try_except, await, except_HeosError.
  destruct (connected controller); cbn [negb]; [|repeat split].
  destruct (command_answer controller _) as [[|]|]; repeat split.
Qed.

(** ** The whole unjoin handler *)

Lemma calls_bind {A} (l : list A) (f : A -> list event) :
  calls (l ≫= f) = l ≫= (fun x => calls (f x)).
Proof.
  induction l as [|x l IH]; [reflexivity|].
  change ((x :: l) ≫= f) with (f x ++ (l ≫= f)).
  now rewrite calls_app, IH.
Qed.

Lemma bind_ext_in {A B} (l : list A) (f g : A -> list B) :
  (forall x, x ∈ l -> f x = g x) -> l ≫= f = l ≫= g.
Proof.
  induction l as [|x l IH]; intros Hfg; [reflexivity|].
  change ((x :: l) ≫= f) with (f x ++ (l ≫= f)).
  change ((x :: l) ≫= g) with (g x ++ (l ≫= g)).
  rewrite Hfg by left. f_equal. apply IH. intros y Hy. apply Hfg. now right.
Qed.

(** Every call of one turn of the unjoin loop is a group operation. *)
Lemma unjoin_group_calls controller (ids : gset Z) item :
  calls (trace (unjoin_group controller ids item))
  = operations (trace (unjoin_group controller ids item)).
Proof.
  destruct item as [gid g]. unfold unjoin_group.
  repeat case_bool_decide;
    unfold try_except, await, except_HeosError, log; simpl;
    try destruct (command_answer controller _); reflexivity.
Qed.

(** The loop of the empty request. *)
Lemma remove_all_loop controller (gs : groups_dict) (fmt : string) :
  let loop := for_each gs (fun item =>
                try_except (await controller (remove_group item.1))
                  (except_HeosError (log ERROR fmt))) in
  outcome loop = inr tt
  /\ calls (trace loop) = remove_group <$> gs.*1
  /\ operations (trace loop) = remove_group <$> gs.*1.
Proof.
  intros loop. subst loop.
  set (body := fun item : Z * pyheos.HeosGroup =>
                 try_except (await controller (remove_group item.1))
                   (except_HeosError (log ERROR fmt))).
  induction gs as [|[gid g] gs (IHo & IHc & IHp)]; [repeat split|].
  destruct (guarded_await controller (remove_group gid) fmt) as [Ho Hc].
  change (for_each ((gid, g) :: gs) body)
    with (body (gid, g);; for_each gs body).
  rewrite (outcome_bind_ok _ tt), (trace_bind_ok _ tt) by exact Ho.
  rewrite calls_app, operations_app, IHc, IHp.
  split; [exact IHo|].
  unfold body, try_except, await, except_HeosError. cbn [fst].
  destruct (command_answer controller _); split; reflexivity.
Qed.

(** What the unjoin handler does, for every controller, house and
    request. *)
Lemma unjoin_summary controller hass service :
  let run := _unjoin_handler controller hass service in
  let ids := ungroup_player_ids (entities hass)
               (list_to_set (unjoin_ATTR_ENTITY_ID service)) in
  outcome run = inr tt
  /\ calls (trace run)
     = (if connected controller
        then get_groups true :: operations (trace run) else [])
  /\ operations (trace run)
     = if connected controller then
         match groups_answer controller with
         | inl _ => []
         | inr gs =>
             if bool_decide (unjoin_ATTR_ENTITY_ID service = [])
             then remove_group <$> gs.*1
             else if bool_decide (ids = ∅) then []
             else gs ≫= (fun item =>
                           operations (trace (unjoin_group controller ids item)))
         end
       else [].
Proof.
  intros run ids. subst run. unfold _unjoin_handler.
  destruct (connected controller) eqn:Hc; cbn [negb]; [|repeat split].
  destruct (groups_answer controller) as [e|gs] eqn:Hg.
  { rewrite (fetch_failed _ e) by exact Hg. rewrite bind_ok. repeat split. }
  rewrite (fetch_ok _ gs) by exact Hg. rewrite bind_ok.
  destruct (decide (unjoin_ATTR_ENTITY_ID service = [])) as [Hreq|Hreq].
  - rewrite (bool_decide_eq_true_2 (unjoin_ATTR_ENTITY_ID service = []))
      by exact Hreq.
    rewrite (bool_decide_eq_true_2
               (list_to_set (unjoin_ATTR_ENTITY_ID service) = ∅))
      by (now rewrite Hreq).
    rewrite log_then. cbn [trace outcome fst snd app].
    destruct (remove_all_loop controller gs
                "Failed to remove HEOS group %s: %s") as (Ho & Hcalls & Hops).
    rewrite !calls_cons, !operations_cons. cbn [operation_of].
    rewrite Hcalls, Hops. auto.
  - rewrite (bool_decide_eq_false_2 (unjoin_ATTR_ENTITY_ID service = []))
      by exact Hreq.
    rewrite (bool_decide_eq_false_2
               (list_to_set (unjoin_ATTR_ENTITY_ID service) = ∅))
      by (now apply list_to_set_nonempty).
    rewrite log_then. cbn [trace outcome fst snd app]. fold ids.
    case_bool_decide as Hids; [repeat split|].
    destruct (for_each_returns gs (unjoin_group controller ids)) as [Ho Ht].
    { intros item _. apply unjoin_group_returns. }
    rewrite !calls_cons, !operations_cons. cbn [operation_of].
    rewrite Ht, calls_bind, operations_bind.
    split; [exact Ho|]. split; [|reflexivity].
    f_equal. apply bind_ext_in. intros item _. apply unjoin_group_calls.
Qed.

(** X3: the unjoin handler never raises, whatever the controller
    answers: every [HeosError] is caught where it occurs. *)
Theorem unjoin_never_raises controller hass service :
  outcome (_unjoin_handler controller hass service) = inr tt.
Proof. apply unjoin_summary. Qed.

(** X4: the unjoin handler calls the controller only when connected, and
    then its first call is [get_groups(refresh=True)] and every later
    call is a group operation: it never acts on groups without a fresh
    snapshot, and fetches once. *)
Theorem unjoin_fetches_once_then_operates controller hass service :
  let run := _unjoin_handler controller hass service in
  calls (trace run)
  = if connected controller
    then get_groups true :: operations (trace run) else [].
Proof. apply unjoin_summary. Qed.

Lemma unjoin_group_operations_any controller controller' (ids : gset Z) item :
  operations (trace (unjoin_group controller ids item))
  = operations (trace (unjoin_group controller' ids item)).
Proof. destruct item as [gid g]. now rewrite !unjoin_group_operations. Qed.

Lemma connected_same controller controller' :
  connection_state controller = connection_state controller' ->
  connected controller = connected controller'.
Proof. unfold connected. now intros ->. Qed.

(** X5: which operations the unjoin handler sends does not depend on
    which commands the controller rejects: a rejected removal or update
    is logged and the remaining groups are still processed. *)
Theorem unjoin_operations_ignore_rejections
    controller controller' hass service :
  connection_state controller = connection_state controller' ->
  groups_answer controller = groups_answer controller' ->
  operations (trace (_unjoin_handler controller hass service))
  = operations (trace (_unjoin_handler controller' hass service)).
Proof.
  intros Hs Hg.
  destruct (unjoin_summary controller hass service) as (_ & _ & ->).
  destruct (unjoin_summary controller' hass service) as (_ & _ & ->).
  rewrite (connected_same _ _ Hs), Hg.
  destruct (connected controller'); [|reflexivity].
  destruct (groups_answer controller') as [e|gs]; [reflexivity|].
  repeat case_bool_decide; try reflexivity.
  apply bind_ext_in. intros item _. apply unjoin_group_operations_any.
Qed.

Lemma unjoin_operations_ignore_rejections_witness :
  operations
    (trace (_unjoin_handler
              (rejects_all [(10, group 1 [2; 3]); (20, group 4 [5])]) house
              (unjoin_request ["media_player.p1"; "media_player.p4"])))
  = operations
      (trace (_unjoin_handler
                (online [(10, group 1 [2; 3]); (20, group 4 [5])]) house
                (unjoin_request ["media_player.p1"; "media_player.p4"]))).
Proof.
  exact (unjoin_operations_ignore_rejections
           (rejects_all [(10, group 1 [2; 3]); (20, group 4 [5])])
           (online [(10, group 1 [2; 3]); (20, group 4 [5])]) house
           (unjoin_request ["media_player.p1"; "media_player.p4"])
           eq_refl eq_refl).
Defined.

(** The operations of a run that got to the loop over the groups. *)
Lemma unjoin_operation_inv controller hass service c :
  c ∈ operations (trace (_unjoin_handler controller hass service)) ->
  exists gs,
    groups_answer controller = inr gs
    /\ ((unjoin_ATTR_ENTITY_ID service = [] /\ c ∈ remove_group <$> gs.*1)
        \/ (ungroup_player_ids (entities hass)
              (list_to_set (unjoin_ATTR_ENTITY_ID service)) <> ∅
            /\ exists item,
                 item ∈ gs
                 /\ c ∈ operations
                        (trace (unjoin_group controller
                                  (ungroup_player_ids (entities hass)
                                     (list_to_set
                                        (unjoin_ATTR_ENTITY_ID service)))
                                  item)))).
Proof.
  destruct (unjoin_summary controller hass service) as (_ & _ & ->).
  destruct (connected controller); [|intros H; inversion H].
  destruct (groups_answer controller) as [e|gs]; [intros H; inversion H|].
  intros Hc. exists gs. split; [reflexivity|].
  repeat case_bool_decide.
  - left. auto.
  - inversion Hc.
  - right. split; [assumption|].
    apply list_elem_of_bind in Hc as (item & Hc & Hitem). eauto.
Qed.

(** X6: the unjoin handler never creates a group, and every operation it
    sends is a removal or an update of a group of the fetched
    snapshot. *)
Theorem unjoin_operations_act_on_snapshot controller hass service c :
  c ∈ operations (trace (_unjoin_handler controller hass service)) ->
  exists gs gid,
    groups_answer controller = inr gs
    /\ gid ∈ gs.*1
    /\ (c = remove_group gid \/ exists ms, c = update_group gid ms).
Proof.
  intros (gs & Hg & [[_ Hc]|(_ & [gid g] & Hitem & Hc)])%unjoin_operation_inv.
  - apply list_elem_of_fmap in Hc as (gid & -> & Hgid).
    exists gs, gid. auto.
  - exists gs, gid. split; [exact Hg|]. split.
    { apply list_elem_of_fmap. exists (gid, g). auto. }
    rewrite unjoin_group_operations in Hc.
    repeat case_bool_decide;
      repeat (apply elem_of_cons in Hc as [->|Hc]; [eauto|]);
      inversion Hc.
Qed.

Lemma unjoin_operations_act_on_snapshot_witness :
  exists gs gid,
    groups_answer (online [(10, group 1 [2; 3])]) = inr gs
    /\ gid ∈ gs.*1
    /\ (update_group 10 {[2]} = remove_group gid
        \/ exists ms, update_group 10 {[2]} = update_group gid ms).
Proof.
  apply (unjoin_operations_act_on_snapshot
           (online [(10, group 1 [2; 3])]) house
           (unjoin_request ["media_player.p3"])).
  replace (operations _) with [update_group 10 {[2]}]
    by (vm_compute; reflexivity).
  left.
Defined.

(** X7: an [update_group] sent by the unjoin handler is a proper
    shrink of a group of the snapshot whose leader stays: the members it
    carries are not empty, are all current members of that group, are
    fewer than before, and none of them is a player asked to leave. *)
Theorem unjoin_update_is_proper_shrink controller hass service gid ms :
  update_group gid ms
    ∈ operations (trace (_unjoin_handler controller hass service)) ->
  let removeIds := ungroup_player_ids (entities hass)
                     (list_to_set (unjoin_ATTR_ENTITY_ID service)) in
  exists gs g,
    groups_answer controller = inr gs
    /\ (gid, g) ∈ gs
    /\ (pyheos.player_id (pyheos.leader g) ∉ removeIds)
    /\ ms <> ∅
    /\ (ms ⊂ list_to_set (pyheos.player_id <$> pyheos.members g))
    /\ (ms ## removeIds).
Proof.
  intros (gs & Hg & [[_ Hc]|(_ & [k g] & Hitem & Hc)])%unjoin_operation_inv
         removeIds.
  - apply list_elem_of_fmap in Hc as (k & Heq & _). discriminate.
  - rewrite unjoin_group_operations in Hc. fold removeIds in Hc.
    repeat case_bool_decide;
      repeat (apply elem_of_cons in Hc as [Heq|Hc]; [try discriminate|]);
      try (inversion Hc).
    injection Heq as -> ->.
    exists gs, g. repeat split; try assumption.
    + apply subseteq_difference_l. reflexivity.
    + intros Hsub. match goal with H : _ ≠ list_to_set _ |- _ => apply H end.
      apply set_eq. intros x. split; [|apply Hsub].
      apply subseteq_difference_l. reflexivity.
    + apply disjoint_difference_l1. reflexivity.
Qed.

Lemma unjoin_update_is_proper_shrink_witness :
  exists gs g,
    groups_answer (online [(10, group 1 [2; 3; 4])]) = inr gs
    /\ (10, g) ∈ gs
    /\ (pyheos.player_id (pyheos.leader g)
         ∉ ungroup_player_ids (entities house)
             (list_to_set ["media_player.p3"; "media_player.tv"]))
    /\ ({[2; 4]} : gset Z) <> ∅
    /\ (({[2; 4]} : gset Z)
          ⊂ list_to_set (pyheos.player_id <$> pyheos.members g))
    /\ (({[2; 4]} : gset Z)
          ## ungroup_player_ids (entities house)
               (list_to_set ["media_player.p3"; "media_player.tv"])).
Proof.
  apply (unjoin_update_is_proper_shrink
           (online [(10, group 1 [2; 3; 4])]) house
           (unjoin_request ["media_player.p3"; "media_player.tv"])).
  replace (operations _) with [update_group 10 {[2; 4]}]
    by (vm_compute; reflexivity).
  left.
Defined.

Lemma length_bind_le {A B} (l : list A) (f : A -> list B) :
  (forall x, x ∈ l -> (length (f x) <= 1)%nat) ->
  (length (l ≫= f) <= length l)%nat.
Proof.
  induction l as [|x l IH]; intros Hf; [reflexivity|].
  change ((x :: l) ≫= f) with (f x ++ (l ≫= f)).
  rewrite length_app. cbn [length].
  assert (length (f x) <= 1)%nat by (apply Hf; left).
  assert (length (l ≫= f) <= length l)%nat
    by (apply IH; intros y Hy; apply Hf; now right).
  lia.
Qed.

Lemma filter_target_bind_le {G} (f : Z * G -> list command)
    (gs : list (Z * G)) (gid : Z) :
  NoDup gs.*1 ->
  (forall item c, c ∈ f item -> target c = Some item.1) ->
  (forall item, (length (f item) <= 1)%nat) ->
  (length (filter (fun c => target c = Some gid) (gs ≫= f)) <= 1)%nat.
Proof.
  intros Hnd Htarget Hone.
  destruct (decide (gid ∈ gs.*1)) as [Hin|Hout].
  - apply list_elem_of_fmap in Hin as ([k g] & -> & Hin). cbn [fst].
    rewrite (filter_target_bind f gs k g Hnd Hin Htarget). apply Hone.
  - rewrite filter_none; [cbn; lia|].
    intros c (item & Hc & Hitem)%list_elem_of_bind Heq.
    rewrite (Htarget item c Hc) in Heq. injection Heq as <-.
    apply Hout, list_elem_of_fmap. eauto.
Qed.

(** X8: the unjoin handler sends at most one operation per group: among
    the operations of a run, at most one acts on any given group id of
    the snapshot (a dict, so its keys are distinct), and so there are no
    more operations than groups; when the snapshot could not be fetched
    there is none. *)
Theorem unjoin_at_most_one_operation_per_group controller hass service :
  let ops := operations (trace (_unjoin_handler controller hass service)) in
  match groups_answer controller with
  | inl _ => ops = []
  | inr gs =>
      (NoDup gs.*1 ->
       forall gid,
         (length (filter (fun c => target c = Some gid) ops) <= 1)%nat)
      /\ (length ops <= length gs)%nat
  end.
Proof.
  intros ops. subst ops.
  destruct (unjoin_summary controller hass service) as (_ & _ & ->).
  destruct (groups_answer controller) as [e|gs].
  { now destruct (connected controller). }
  assert (Hturn : forall item : Z * pyheos.HeosGroup,
            (length (operations
                       (trace (unjoin_group controller
                                 (ungroup_player_ids (entities hass)
                                    (list_to_set
                                       (unjoin_ATTR_ENTITY_ID service)))
                                 item))) <= 1)%nat).
  { intros [k g]. rewrite unjoin_group_operations.
    repeat case_bool_decide; cbn [length]; lia. }
  assert (Hall : remove_group <$> gs.*1
                 = gs ≫= (fun item : Z * pyheos.HeosGroup =>
                            [remove_group item.1])).
  { clear. induction gs as [|[k g] gs IH]; [reflexivity|].
    change (((k, g) :: gs) ≫= ?f) with (f (k, g) ++ (gs ≫= f)).
    rewrite <- IH. reflexivity. }
  split.
  - intros Hnd gid.
    destruct (connected controller); [|cbn; lia].
    repeat case_bool_decide; try (cbn; lia).
    + rewrite Hall. apply filter_target_bind_le; [exact Hnd| |cbn; lia].
      intros item c Hc. apply elem_of_cons in Hc as [->|Hc]; [reflexivity|].
      inversion Hc.
    + apply filter_target_bind_le; [exact Hnd| |exact Hturn].
      intros item c. apply unjoin_group_targets.
  - destruct (connected controller); [|cbn; lia].
    repeat case_bool_decide; cbn [length]; try lia.
    + now rewrite !length_fmap.
    + apply length_bind_le. intros item _. apply Hturn.
Qed.

Lemma unjoin_at_most_one_operation_per_group_witness :
  (length
     (filter (fun c => target c = Some 10%Z)
        (operations
           (trace (_unjoin_handler
                     (online [(10, group 1 [2; 3]); (20, group 4 [5])]%Z) house
                     (unjoin_request ["media_player.p1"; "media_player.p2";
                                      "media_player.p3"])))))
   <= 1)%nat.
Proof.
  refine (proj1 (unjoin_at_most_one_operation_per_group
                   (online [(10, group 1 [2; 3]); (20, group 4 [5])]) house
                   (unjoin_request ["media_player.p1"; "media_player.p2";
                                    "media_player.p3"])) _ 10).
  apply (bool_decide_unpack _). vm_compute. exact I.
Defined.

(** X9: a request that names the leader of every group disbands every
    group: the operations are those of the empty request, one
    [remove_group] per group in the order of the snapshot. *)
Theorem unjoin_every_leader_removes_every_group
    controller hass service gs :
  connected controller = true ->
  groups_answer controller = inr gs ->
  (forall gid g, (gid, g) ∈ gs ->
     pyheos.player_id (pyheos.leader g)
       ∈ ungroup_player_ids (entities hass)
           (list_to_set (unjoin_ATTR_ENTITY_ID service))) ->
  operations (trace (_unjoin_handler controller hass service))
  = remove_group <$> gs.*1.
Proof.
  intros Hc Hg Hleaders.
  destruct (unjoin_summary controller hass service) as (_ & _ & ->).
  rewrite Hc, Hg.
  case_bool_decide as Hreq; [reflexivity|].
  case_bool_decide as Hids.
  - destruct gs as [|[gid g] gs]; [reflexivity|]. exfalso.
    specialize (Hleaders gid g (list_elem_of_here _ _)).
    rewrite Hids in Hleaders. now apply not_elem_of_empty in Hleaders.
  - clear Hreq Hids Hg. induction gs as [|[gid g] gs IH]; [reflexivity|].
    change (((gid, g) :: gs) ≫= ?f) with (f (gid, g) ++ (gs ≫= f)).
    rewrite IH by (intros k h Hin; apply (Hleaders k h); now right).
    rewrite unjoin_group_operations.
    rewrite bool_decide_eq_true_2 by (apply (Hleaders gid g); left).
    reflexivity.
Qed.

Lemma unjoin_every_leader_removes_every_group_witness :
  operations
    (trace (_unjoin_handler
              (online [(10, group 1 [2]); (20, group 3 [4])]) house
              (unjoin_request ["media_player.p3"; "media_player.p1"])))
  = [remove_group 10; remove_group 20].
Proof.
  refine (unjoin_every_leader_removes_every_group
            (online [(10, group 1 [2]); (20, group 3 [4])]) house
            (unjoin_request ["media_player.p3"; "media_player.p1"])
            _ eq_refl eq_refl _).
  intros gid g Hin.
  repeat (apply elem_of_cons in Hin as [[= -> ->]|Hin];
          [apply (bool_decide_unpack _); vm_compute; exact I|]).
  inversion Hin.
Defined.



(** X11: players that are in no group can be unjoined at no cost: when
    the request resolves to players that lead no group and are members
    of none, and every group has a member, nothing is sent. *)
Theorem unjoin_players_without_group_sends_nothing
    controller hass service gs :
  groups_answer controller = inr gs ->
  (forall gid g, (gid, g) ∈ gs ->
     pyheos.members g <> []
     /\ forall p, p ∈ pyheos.leader g :: pyheos.members g ->
          pyheos.player_id p
            ∉ ungroup_player_ids (entities hass)
                (list_to_set (unjoin_ATTR_ENTITY_ID service))) ->
  unjoin_ATTR_ENTITY_ID service <> [] ->
  operations (trace (_unjoin_handler controller hass service)) = [].
Proof.
  intros Hg Hfree Hreq.
  destruct (unjoin_summary controller hass service) as (_ & _ & ->).
  rewrite Hg. destruct (connected controller); [|reflexivity].
  rewrite bool_decide_eq_false_2 by exact Hreq.
  case_bool_decide as Hids; [reflexivity|].
  clear Hg. induction gs as [|[gid g] gs IH]; [reflexivity|].
  change (((gid, g) :: gs) ≫= ?f) with (f (gid, g) ++ (gs ≫= f)).
  rewrite IH by (intros k h Hin; apply (Hfree k h); now right).
  destruct (Hfree gid g (list_elem_of_here _ _)) as [Hmem Hout].
  rewrite unjoin_group_operations.
  set (ids := ungroup_player_ids _ _) in *.
  assert (Hkeep : list_to_set (pyheos.player_id <$> pyheos.members g) ∖ ids
                  =@{gset Z} list_to_set (pyheos.player_id <$> pyheos.members g)).
  { apply set_eq. intros x. rewrite elem_of_difference. split; [tauto|].
    intros Hx. split; [exact Hx|].
    apply elem_of_list_to_set, list_elem_of_fmap in Hx as (p & -> & Hp).
    apply Hout. now right. }
  rewrite bool_decide_eq_false_2 by (apply Hout; left).
  rewrite Hkeep.
  rewrite bool_decide_eq_false_2.
  - rewrite bool_decide_eq_false_2; [reflexivity|]. intros H; now apply H.
  - destruct (pyheos.members g) as [|p ps]; [done|].
    intros Hempty.
    assert (pyheos.player_id p
              ∈@{gset Z} list_to_set (pyheos.player_id <$> p :: ps)) as Hp
      by (apply elem_of_list_to_set; left).
    rewrite Hempty in Hp. now apply not_elem_of_empty in Hp.
Qed.

Lemma unjoin_players_without_group_sends_nothing_witness :
  operations
    (trace (_unjoin_handler (online [(10, group 1 [2; 3])]) house
              (unjoin_request ["media_player.p4"]))) = [].
Proof.
  refine (unjoin_players_without_group_sends_nothing
            (online [(10, group 1 [2; 3])]) house
            (unjoin_request ["media_player.p4"]) _ eq_refl _ _).
  - intros gid g Hin.
    apply elem_of_cons in Hin as [[= -> ->]|Hin]; [|inversion Hin].
    split; [discriminate|]. intros p Hp.
    repeat (apply elem_of_cons in Hp as [->|Hp];
            [apply (bool_decide_unpack _); vm_compute; exact I|]).
    inversion Hp.
  - discriminate.
Defined.

(** ** The whole join handler *)

Lemma truthy_accepts (v : option Z) :
  truthy v = true -> exists L, v = Some L /\ L <> 0.
Proof.
  destruct v as [L|]; [|discriminate].
  intros H. exists L. split; [reflexivity|]. now apply truthy_Some.
Qed.

(** What the join handler does, for every controller, house and
    request. *)
Lemma join_summary controller hass service :
  let run := _join_handler controller hass service in
  let leader_player_id :=
    find_leader_player_id (entities hass) (ATTR_GROUP_LEADER service) in
  calls (trace run)
  = (if connected controller
     then get_groups true :: operations (trace run) else [])
  /\ operations (trace run)
     = (if connected controller then
          match groups_answer controller with
          | inl _ => []
          | inr gs =>
              if truthy leader_player_id then
                let L := default 0 leader_player_id in
                let existing := find_existing_group gs L in
                let all_member_player_ids :=
                  new_member_player_ids (entities hass)
                    (join_ATTR_ENTITY_ID service) ∪ existing.2 in
                [if truthy existing.1
                 then update_group (default 0 existing.1)
                        all_member_player_ids
                 else create_group L all_member_player_ids]
              else []
          end
        else [])
  /\ outcome run
     = (if connected controller then
          match groups_answer controller with
          | inl _ => if truthy leader_player_id
                     then inl (UnboundLocalError "groups") else inr tt
          | inr _ => inr tt
          end
        else inr tt).
Proof.
  intros run lpid. subst run lpid.
  remember (find_leader_player_id (entities hass) (ATTR_GROUP_LEADER service))
    as v eqn:Hv.
  destruct (connected controller) eqn:Hc.
  2:{ unfold _join_handler. rewrite Hc. repeat split. }
  destruct (groups_answer controller) as [e|gs] eqn:Hg.
  { rewrite (join_after_failed_fetch _ _ _ e Hc Hg), <- Hv.
    destruct (truthy v); repeat split. }
  unfold _join_handler. rewrite Hc. cbn [negb].
  rewrite (fetch_ok _ gs) by exact Hg. rewrite bind_ok, <- Hv.
  destruct (truthy v) eqn:Hl; [|repeat split].
  destruct (truthy_accepts _ Hl) as (L & -> & HL0).
  cbn [negb default from_option id].
  destruct (find_existing_group gs L) as [existing_id existing_members].
  cbn [fst snd].
  destruct (truthy existing_id);
    rewrite log_then; cbn [trace outcome fst snd];
    unfold try_except, await, except_HeosError, log;
    destruct (command_answer controller _); repeat split.
Qed.

(** X12: the join handler calls the controller only when connected, and
    then its first call is [get_groups(refresh=True)] and the only other
    call, if any, is the one group operation. *)
Theorem join_fetches_once_then_operates controller hass service :
  let run := _join_handler controller hass service in
  calls (trace run)
  = (if connected controller
     then get_groups true :: operations (trace run) else [])
  /\ (length (operations (trace run)) <= 1)%nat.
Proof.
  destruct (join_summary controller hass service) as (Hcalls & Hops & _).
  split; [exact Hcalls|]. cbv zeta. rewrite Hops.
  destruct (connected controller); [|cbn; lia].
  destruct (groups_answer controller); [cbn; lia|].
  destruct (truthy _); cbn; lia.
Qed.

(** X13: the join handler never removes a group: whatever it sends is a
    [create_group] or an [update_group]. *)
Theorem join_never_removes controller hass service c :
  c ∈ operations (trace (_join_handler controller hass service)) ->
  (exists l ms, c = create_group l ms) \/ (exists g ms, c = update_group g ms).
Proof.
  destruct (join_summary controller hass service) as (_ & -> & _).
  destruct (connected controller); [|intros H; inversion H].
  destruct (groups_answer controller); [intros H; inversion H|].
  destruct (truthy _); [|intros H; inversion H].
  cbv zeta. intros Hc. apply elem_of_cons in Hc as [->|Hc]; [|inversion Hc].
  destruct (truthy _); eauto.
Qed.

Lemma join_never_removes_witness :
  (exists l ms, update_group 10 {[2; 3; 4]} = create_group l ms)
  \/ (exists g ms, update_group 10 {[2; 3; 4]} = update_group g ms).
Proof.
  apply (join_never_removes (online [(10, group 1 [2; 3])]) house
           (join_request "media_player.p1" ["media_player.p4"])).
  replace (operations _) with [update_group 10 {[2; 3; 4]}]
    by (vm_compute; reflexivity).
  left.
Defined.

(** X14: the only exception that leaves the join handler is
    [UnboundLocalError] on [groups], and it does so exactly when the
    controller is connected, [get_groups] raised and the leader was
    accepted; in every other case the handler returns. *)
Theorem join_raises_only_unbound_groups controller hass service (e : exn) :
  outcome (_join_handler controller hass service) = inl e
  <-> connected controller = true
      /\ (exists err, groups_answer controller = inl err)
      /\ truthy (find_leader_player_id (entities hass)
                   (ATTR_GROUP_LEADER service)) = true
      /\ e = UnboundLocalError "groups".
Proof.
  destruct (join_summary controller hass service) as (_ & _ & ->).
  destruct (connected controller).
  2:{ split; [discriminate|]. intros (? & _); discriminate. }
  destruct (groups_answer controller) as [err|gs].
  2:{ split; [discriminate|]. intros (_ & (? & ?) & _); discriminate. }
  destruct (truthy _).
  - split.
    + intros [= <-]. eauto 6.
    + intros (_ & _ & _ & ->). reflexivity.
  - split; [discriminate|]. intros (_ & _ & ? & _); discriminate.
Qed.

Lemma join_raises_only_unbound_groups_witness :
  outcome (_join_handler unreachable house
             (join_request "media_player.p1" ["media_player.p4"]))
  = inl (UnboundLocalError "groups").
Proof.
  apply (proj2 (join_raises_only_unbound_groups unreachable house
                  (join_request "media_player.p1" ["media_player.p4"])
                  (UnboundLocalError "groups"))).
  split; [reflexivity|]. split; [eexists; reflexivity|].
  split; reflexivity.
Defined.

(** X15: the operation the join handler sends does not depend on
    whether the controller rejects it. *)
Theorem join_operation_ignores_rejection controller controller' hass service :
  connection_state controller = connection_state controller' ->
  groups_answer controller = groups_answer controller' ->
  operations (trace (_join_handler controller hass service))
  = operations (trace (_join_handler controller' hass service)).
Proof.
  intros Hs Hg.
  destruct (join_summary controller hass service) as (_ & -> & _).
  destruct (join_summary controller' hass service) as (_ & -> & _).
  now rewrite (connected_same _ _ Hs), Hg.
Qed.

Lemma join_operation_ignores_rejection_witness :
  operations
    (trace (_join_handler (rejects_all [(10, group 1 [2; 3])]) house
              (join_request "media_player.p1" ["media_player.p4"])))
  = operations
      (trace (_join_handler (online [(10, group 1 [2; 3])]) house
                (join_request "media_player.p1" ["media_player.p4"]))).
Proof.
  exact (join_operation_ignores_rejection
           (rejects_all [(10, group 1 [2; 3])])
           (online [(10, group 1 [2; 3])]) house
           (join_request "media_player.p1" ["media_player.p4"])
           eq_refl eq_refl).
Defined.

(** X16: a group operation that the controller rejects is written as
    one error record and the join handler returns; an accepted one
    leaves no error record. *)
Theorem join_rejection_is_logged controller hass service gs :
  connected controller = true ->
  groups_answer controller = inr gs ->
  truthy (find_leader_player_id (entities hass)
            (ATTR_GROUP_LEADER service)) = true ->
  let run := _join_handler controller hass service in
  exists op,
    operations (trace run) = [op]
    /\ outcome run = inr tt
    /\ error_records (trace run)
       = match command_answer controller op, op with
         | None, _ => []
         | Some _, update_group _ _ =>
             ["Unable to call update_group(%s, %s): %s"]
         | Some _, _ =>
             ["HEOS create_group with arguments (%s, %s) failed. Error: %s"]
         end.
Proof.
  intros Hc Hg Hl run. subst run.
  destruct (truthy_accepts _ Hl) as (L & HL & HL0).
  unfold _join_handler. rewrite Hc. cbn [negb].
  rewrite (fetch_ok _ gs) by exact Hg. rewrite bind_ok.
  rewrite HL, (proj2 (truthy_Some L) HL0).
  cbn [negb default from_option id].
  destruct (find_existing_group gs L) as [existing_id existing_members].
  destruct (truthy existing_id);
    rewrite log_then; cbn [trace outcome fst snd];
    unfold try_except, await, except_HeosError, log;
    eexists; (destruct (command_answer controller _) eqn:Ha;
              cbn; rewrite ?Ha; repeat split).
Qed.

Lemma join_rejection_is_logged_witness :
  exists op,
    operations
      (trace (_join_handler (rejects_all []) house
                (join_request "media_player.p1" ["media_player.p2"]))) = [op]
    /\ outcome (_join_handler (rejects_all []) house
                  (join_request "media_player.p1" ["media_player.p2"]))
       = inr tt
    /\ error_records
         (trace (_join_handler (rejects_all []) house
                   (join_request "media_player.p1" ["media_player.p2"])))
       = match command_answer (rejects_all []) op, op with
         | None, _ => []
         | Some _, update_group _ _ =>
             ["Unable to call update_group(%s, %s): %s"]
         | Some _, _ =>
             ["HEOS create_group with arguments (%s, %s) failed. Error: %s"]
         end.
Proof.
  exact (join_rejection_is_logged (rejects_all []) house
           (join_request "media_player.p1" ["media_player.p2"]) []
           eq_refl eq_refl eq_refl).
Defined.

Lemma join_updates_existing_group_witness :
  operations
    (trace (_join_handler (online [(20, group 4 [5]); (10, group 1 [2; 3])])
              house
              (join_request "media_player.p1"
                 ["media_player.p4"; "media_player.p2"])))
  = [update_group 10
       (new_member_player_ids (entities house)
          ["media_player.p4"; "media_player.p2"]
        ∪ list_to_set (pyheos.player_id <$> pyheos.members (group 1 [2; 3])))].
Proof.
  refine (join_updates_existing_group
            (online [(20, group 4 [5]); (10, group 1 [2; 3])]) house
            (join_request "media_player.p1"
               ["media_player.p4"; "media_player.p2"])
            _ 1 10 (group 1 [2; 3]) eq_refl eq_refl eq_refl _ _ eq_refl _ _).
  - discriminate.
  - right. left.
  - intros k h Hin Hl.
    apply elem_of_cons in Hin as [[= -> ->]|Hin]; [discriminate|].
    apply elem_of_cons in Hin as [[= -> ->]|Hin]; [reflexivity|].
    inversion Hin.
  - discriminate.
Defined.


(** X19: the join handler sends its update even when it changes
    nothing: if every requested member is already in the leader's
    group, the operation is [update_group] with the members the group
    has. *)
Theorem join_present_members_resends_group
    controller hass service gs (L gid : Z) g :
  connected controller = true ->
  groups_answer controller = inr gs ->
  find_leader_player_id (entities hass) (ATTR_GROUP_LEADER service) = Some L ->
  L <> 0 ->
  (gid, g) ∈ gs ->
  pyheos.player_id (pyheos.leader g) = L ->
  (forall k h, (k, h) ∈ gs -> pyheos.player_id (pyheos.leader h) = L ->
               (k, h) = (gid, g)) ->
  gid <> 0 ->
  (forall eid pid, eid ∈ join_ATTR_ENTITY_ID service ->
     HeosMediaPlayer eid pid ∈ entities hass ->
     pid ∈ pyheos.player_id <$> pyheos.members g) ->
  operations (trace (_join_handler controller hass service))
  = [update_group gid
       (list_to_set (pyheos.player_id <$> pyheos.members g))].
Proof.
  intros Hc Hg Hl HL Hin Hlead Huniq Hgid Hpresent.
  rewrite (join_updates_existing_group controller hass service gs L gid g)
    by assumption.
  do 2 f_equal. apply set_eq. intros pid.
  rewrite elem_of_union, elem_of_new_member_player_ids, elem_of_list_to_set.
  split; [|auto]. intros [(eid & Hm & He)|Hp]; [eauto|exact Hp].
Qed.

Lemma join_present_members_resends_group_witness :
  operations
    (trace (_join_handler (online [(10, group 1 [2; 3])]) house
              (join_request "media_player.p1" ["media_player.p3"])))
  = [update_group 10
       (list_to_set (pyheos.player_id <$> pyheos.members (group 1 [2; 3])))].
Proof.
  refine (join_present_members_resends_group
            (online [(10, group 1 [2; 3])]) house
            (join_request "media_player.p1" ["media_player.p3"])
            _ 1 10 (group 1 [2; 3]) eq_refl eq_refl eq_refl _ _ eq_refl _ _ _).
  - discriminate.
  - left.
  - intros k h Hin _.
    apply elem_of_cons in Hin as [Heq|Hin]; [exact Heq|inversion Hin].
  - discriminate.
  - intros eid pid Hm He. simpl in Hm, He.
    apply elem_of_cons in Hm as [->|Hm]; [|inversion Hm].
    repeat (apply elem_of_cons in He as [Heq|He];
            [try discriminate; injection Heq as ->;
             apply (bool_decide_unpack _); vm_compute; exact I|]).
    inversion He.
Defined.

(** X20: the members of a join request are resolved as a set of entity
    ids: two requests for the same leader that list the same ids, in any
    order and any number of times, make the same calls on the controller
    (the same fetch and the same operation with the same member ids) and
    end the same way. *)
Theorem join_members_are_a_set
    controller hass (leader : string) (ms ms' : list string) :
  (forall x, x ∈ ms <-> x ∈ ms') ->
  let run := _join_handler controller hass (join_request leader ms) in
  let run' := _join_handler controller hass (join_request leader ms') in
  calls (trace run) = calls (trace run')
  /\ operations (trace run) = operations (trace run')
  /\ outcome run = outcome run'.
Proof.
  intros Hsame run run'.
  assert (Hres : new_member_player_ids (entities hass) ms
                 = new_member_player_ids (entities hass) ms').
  { apply set_eq. intros pid. rewrite !elem_of_new_member_player_ids.
    split; intros (eid & Hm & He); exists eid; (split; [|exact He]);
      now apply Hsame. }
  destruct (join_same_resolved_members controller hass leader ms ms' Hres)
    as (Hcalls & Ho & _).
  split; [exact Hcalls|]. split; [|exact Ho].
  destruct (join_summary controller hass (join_request leader ms))
    as (_ & Hops & _).
  destruct (join_summary controller hass (join_request leader ms'))
    as (_ & Hops' & _).
  subst run run'. rewrite Hops, Hops'.
  cbn [join_request ATTR_GROUP_LEADER join_ATTR_ENTITY_ID].
  now rewrite Hres.
Qed.

Lemma join_members_are_a_set_witness :
  calls
    (trace (_join_handler (online [(10, group 1 [2])]) house
              (join_request "media_player.p1"
                 ["media_player.p4"; "media_player.p3"; "media_player.p4"])))
  = calls
      (trace (_join_handler (online [(10, group 1 [2])]) house
                (join_request "media_player.p1"
                   ["media_player.p3"; "media_player.p4"]))).
Proof.
  refine (proj1 (join_members_are_a_set (online [(10, group 1 [2])]) house
                   "media_player.p1"
                   ["media_player.p4"; "media_player.p3"; "media_player.p4"]
                   ["media_player.p3"; "media_player.p4"] _)).
  intros x. split; intros Hx;
    repeat (apply elem_of_cons in Hx as [->|Hx];
            [repeat first [apply list_elem_of_here
                          |apply list_elem_of_further]|]);
    inversion Hx.
Defined.

(** ** Entities that are not HEOS players *)

Lemma find_leader_player_id_other (es1 es2 : list Entity) (eid leader : string) :
  find_leader_player_id (es1 ++ OtherMediaPlayer eid :: es2) leader
  = find_leader_player_id (es1 ++ es2) leader.
Proof.
  induction es1 as [|[e p|e] es1 IH]; simpl; [reflexivity| |exact IH].
  now rewrite IH.
Qed.

Lemma new_member_player_ids_other (es1 es2 : list Entity) (eid : string) ms :
  new_member_player_ids (es1 ++ OtherMediaPlayer eid :: es2) ms
  = new_member_player_ids (es1 ++ es2) ms.
Proof.
  induction es1 as [|[e p|e] es1 IH]; simpl; [reflexivity| |exact IH].
  now rewrite IH.
Qed.

Lemma ungroup_player_ids_other (es1 es2 : list Entity) (eid : string) ids :
  ungroup_player_ids (es1 ++ OtherMediaPlayer eid :: es2) ids
  = ungroup_player_ids (es1 ++ es2) ids.
Proof. unfold ungroup_player_ids. now rewrite !foldl_app. Qed.

(** X21: only HEOS entities count.  An entity of the media_player domain
    that is not a HEOS player changes neither the join run nor the
    unjoin run, wherever it stands among the entities and whatever its
    entity id, also when the request names it. *)
Theorem handlers_ignore_other_entities
    controller (es1 es2 : list Entity) (eid : string)
    (j : join_data) (u : unjoin_data) :
  _join_handler controller
    {| entities := es1 ++ OtherMediaPlayer eid :: es2 |} j
  = _join_handler controller {| entities := es1 ++ es2 |} j
  /\ _unjoin_handler controller
       {| entities := es1 ++ OtherMediaPlayer eid :: es2 |} u
     = _unjoin_handler controller {| entities := es1 ++ es2 |} u.
Proof.
  unfold _join_handler, _unjoin_handler. cbn [entities].
  now rewrite find_leader_player_id_other, new_member_player_ids_other,
    ungroup_player_ids_other.
Qed.

(** ** The feature flags *)

Lemma support_flag_and :
  Forall (fun g =>
            Forall (fun f => Z.land g f = if bool_decide (g = f) then f else 0)
              media_player.SUPPORT_FLAGS)
    media_player.SUPPORT_FLAGS.
Proof. apply (bool_decide_unpack _). vm_compute. exact I. Qed.

Lemma support_flag_nonzero :
  Forall (fun f => f <> 0) media_player.SUPPORT_FLAGS.
Proof. apply (bool_decide_unpack _). vm_compute. exact I. Qed.

(** X22: the [SUPPORT_*] constants are distinct single bits, so a
    feature mask made by or-ing any of them can be read back: and-ing
    the mask with a flag is non-zero exactly when that flag went into
    the mask. *)
Theorem support_flags_read_back (chosen : list Z) (flag : Z) :
  (forall f, f ∈ chosen -> f ∈ media_player.SUPPORT_FLAGS) ->
  flag ∈ media_player.SUPPORT_FLAGS ->
  Z.land (foldr Z.lor 0 chosen) flag <> 0 <-> flag ∈ chosen.
Proof.
  intros Hchosen Hflag.
  assert (Hnz : flag <> 0).
  { pose proof support_flag_nonzero as Hall.
    rewrite Forall_forall in Hall. now apply Hall. }
  assert (Hand : forall g, g ∈ media_player.SUPPORT_FLAGS ->
            Z.land g flag = if bool_decide (g = flag) then flag else 0).
  { intros g Hg. pose proof support_flag_and as Hall.
    rewrite Forall_forall in Hall. specialize (Hall g Hg).
    rewrite Forall_forall in Hall. now apply Hall. }
  enough (Hmask : Z.land (foldr Z.lor 0 chosen) flag
                  = if bool_decide (flag ∈ chosen) then flag else 0).
  { rewrite Hmask. case_bool_decide; split; try done. }
  induction chosen as [|g chosen IH]; cbn [foldr].
  - rewrite bool_decide_eq_false_2 by (intros H; inversion H). reflexivity.
  - rewrite Z.land_lor_distr_l, IH, Hand
      by (try (intros f Hf; apply Hchosen; now right); apply Hchosen; left).
    repeat case_bool_decide; subst;
      rewrite ?Z.lor_diag, ?Z.lor_0_r, ?Z.lor_0_l; try reflexivity;
      exfalso;
      repeat match goal with
             | H : _ ∉ _ :: _ |- _ => apply not_elem_of_cons in H as [? ?]
             | H : _ ∈ _ :: _ |- _ => apply elem_of_cons in H as [?|?]
             end; congruence.
Qed.

Lemma support_flags_read_back_witness :
  Z.land (foldr Z.lor 0 [media_player.SUPPORT_PLAY; media_player.SUPPORT_STOP])
    media_player.SUPPORT_STOP <> 0
  <-> media_player.SUPPORT_STOP
        ∈ [media_player.SUPPORT_PLAY; media_player.SUPPORT_STOP].
Proof.
  apply support_flags_read_back.
  - intros f Hf.
    repeat (apply elem_of_cons in Hf as [->|Hf];
            [apply (bool_decide_unpack _); vm_compute; exact I|]).
    inversion Hf.
  - apply (bool_decide_unpack _). vm_compute. exact I.
Defined.

(** ** Registration *)

(** X23: [remove] unregisters exactly what [register] registered: the
    same four (domain, service) pairs in the same order, all in the HEOS
    domain, with join and unjoin under the names of the media_player
    constants; [register] removes nothing and [remove] registers
    nothing. *)
Theorem remove_unregisters_what_register_registered
    (HEOS_DOMAIN SERVICE_SIGN_IN SERVICE_SIGN_OUT : string) hass controller :
  let reg := register HEOS_DOMAIN SERVICE_SIGN_IN SERVICE_SIGN_OUT
               hass controller in
  let rem := remove HEOS_DOMAIN SERVICE_SIGN_IN SERVICE_SIGN_OUT hass in
  removed rem = registered reg
  /\ registered reg
     = [ (HEOS_DOMAIN, SERVICE_SIGN_IN); (HEOS_DOMAIN, SERVICE_SIGN_OUT);
         (HEOS_DOMAIN, "join"); (HEOS_DOMAIN, "unjoin") ]
  /\ removed reg = []
  /\ registered rem = [].
Proof. repeat split. Qed.
